(** * Size estimation and vulnerability-report aggregation of the n8n build scripts

    A shallow embedding of the scripts that carry the logic of the
    repository:

    - [docker_scan.mjs]: runs the scanner, counts the vulnerabilities of its
      JSON report by severity, writes the summary file and prints the first
      critical/high findings;
    - [local_build.mjs]: [parseSizeToBytes], the estimate of the total image
      size, the timers, the patches kept for deployment and the
      configuration;
    - [local_build_scan.sh]: [format_duration] and the configuration.

    The definitions come first (modules [JS], [DockerScan], [LocalBuild],
    [LocalBuildScan] and [Notions]), the lemmas and theorems follow. *)

From Stdlib Require Import ZArith QArith Qround Qabs Ascii DecimalString.
From Stdlib Require DecimalZ DecimalN Qcanon.
From stdpp Require Import base list gmap strings sorting.

(** ** The fragment of JavaScript the scripts rely on *)

Module JS.

(** *** Completions and the script monad

    A script is a computation over a world [W] (its top-level [let]
    variables, the terminal, the files it wrote) that either completes
    normally or throws.  Mutations made before a throw stay in the world, as
    in JavaScript. *)

Inductive completion (A : Type) : Type :=
  | Normal (a : A)
  | Throw (e : string).
Arguments Normal {A} a.
Arguments Throw {A} e.

Definition M (W A : Type) : Type := W → completion A * W.

Definition ret {W A} (a : A) : M W A := λ w, (Normal a, w).

Definition bind {W A B} (m : M W A) (k : A → M W B) : M W B :=
  λ w, match m w with
       | (Normal a, w') => k a w'
       | (Throw e, w') => (Throw e, w')
       end.

Definition throw {W A} (e : string) : M W A := λ w, (Throw e, w).

(** [try { body } catch (error) { handler }] *)
Definition try_catch {W A} (body : M W A) (handler : string → M W A) : M W A :=
  λ w, match body w with
       | (Normal a, w') => (Normal a, w')
       | (Throw e, w') => handler e w'
       end.

Definition modify {W} (f : W → W) : M W unit := λ w, (Normal tt, f w).
Definition gets {W A} (f : W → A) : M W A := λ w, (Normal (f w), w).

#[global] Instance M_ret {W} : MRet (M W) := λ A, ret.
#[global] Instance M_bind {W} : MBind (M W) := λ A B k m, bind m k.

(** [for (const x of l) { body }], the variables the body updates being
    threaded as [s]. *)
Fixpoint for_of {W A S} (l : list A) (body : A → S → M W S) (s : S) : M W S :=
  match l with
  | [] => ret s
  | x :: l' => bind (body x s) (for_of l' body)
  end.

(** *** Strings and numbers *)

Definition nl : string := String "010"%char EmptyString.

(** [String(n)] for a non-negative integer. *)
Definition Number_toString (n : nat) : string :=
  NilEmpty.string_of_uint (Nat.to_uint n).

(** [l.join(sep)] *)
Definition join (sep : string) (l : list string) : string := String.concat sep l.

(** [l.indexOf(x)] on an array of strings: the first position of [x], or -1. *)
Fixpoint indexOf_from (l : list string) (x : string) (i : Z) : Z :=
  match l with
  | [] => (-1)%Z
  | y :: l' => if String.eqb y x then i else indexOf_from l' x (i + 1)%Z
  end.
Definition indexOf (l : list string) (x : string) : Z := indexOf_from l x 0%Z.

(** [l.slice(from, to)] for [0 <= from <= to]. *)
Definition slice {A} (from to : nat) (l : list A) : list A :=
  take (to - from) (drop from l).

(** [l.sort(cmp)].  The language requires the sort to be stable; with a
    comparator that orders by a key, as both uses here do, the result is
    the one stable arrangement, which inserting from the right computes:
    an element goes before the first one it does not compare greater than. *)
Fixpoint sort_insert {A} (cmp : A → A → Z) (x : A) (l : list A) : list A :=
  match l with
  | [] => [x]
  | y :: l' => if (cmp x y <=? 0)%Z then x :: l else y :: sort_insert cmp x l'
  end.
Definition Array_sort {A} (cmp : A → A → Z) (l : list A) : list A :=
  foldr (sort_insert cmp) [] l.

(** *** Plain objects used as string-keyed maps

    [severityMap] is created by [{}]: its own properties are kept in
    creation order and reads fall back on [Object.prototype].  The values the
    script ever stores are counts, or the strings that [+ 1] makes of an
    inherited function or object. *)

Inductive prim : Type :=
  | Num (n : nat)
  | Str (s : string).

Inductive value : Type :=
  | undefined
  | Prim (p : prim)
  | Ref (text : string).  (* an inherited object; [text] is what [+] makes of it *)

Definition ToString (p : prim) : string :=
  match p with
  | Num n => Number_toString n
  | Str s => s
  end.

Abbreviation object := (list (string * prim)) (only parsing).

Definition native (name : string) : string :=
  "function " +:+ name +:+ "() { [native code] }".

(** The properties of [Object.prototype], each with its string conversion. *)
Definition ObjectPrototype : list (string * string) :=
  [ ("constructor", native "Object");
    ("__defineGetter__", native "__defineGetter__");
    ("__defineSetter__", native "__defineSetter__");
    ("hasOwnProperty", native "hasOwnProperty");
    ("__lookupGetter__", native "__lookupGetter__");
    ("__lookupSetter__", native "__lookupSetter__");
    ("isPrototypeOf", native "isPrototypeOf");
    ("propertyIsEnumerable", native "propertyIsEnumerable");
    ("toString", native "toString");
    ("valueOf", native "valueOf");
    ("__proto__", "[object Object]");
    ("toLocaleString", native "toLocaleString") ].

Fixpoint assoc {V} (l : list (string * V)) (k : string) : option V :=
  match l with
  | [] => None
  | (k', v) :: l' => if String.eqb k' k then Some v else assoc l' k
  end.

Definition inherited (k : string) : bool :=
  match assoc ObjectPrototype k with Some _ => true | None => false end.

(** [o[k]] *)
Definition Get (o : object) (k : string) : value :=
  match assoc o k with
  | Some p => Prim p
  | None =>
      match assoc ObjectPrototype k with
      | Some text => Ref text
      | None => undefined
      end
  end.

Fixpoint DefineOwn (o : object) (k : string) (p : prim) : object :=
  match o with
  | [] => [(k, p)]
  | (k', p') :: o' =>
      if String.eqb k' k then (k', p) :: o' else (k', p') :: DefineOwn o' k p
  end.

(** [o[k] = p] for a primitive [p]: the [__proto__] setter ignores
    primitives, every other key gets (or keeps) an own property. *)
Definition Put (o : object) (k : string) (p : prim) : object :=
  if String.eqb k "__proto__" then o else DefineOwn o k p.

(** [(v || 0) + 1] *)
Definition or0_plus1 (v : value) : prim :=
  match v with
  | undefined => Num 1
  | Prim (Num n) => Num (n + 1)
  | Prim (Str s) => if String.eqb s "" then Num 1 else Str (s +:+ "1")
  | Ref text => Str (text +:+ "1")
  end.

(** Own keys that are array indices (canonical decimal numerals below
    [2^32 - 1]) are enumerated first, in ascending order; the other keys
    follow in creation order. *)
Definition digit_of (c : ascii) : option N :=
  let n := N_of_ascii c in
  if (48 <=? n)%N && (n <=? 57)%N then Some (n - 48)%N else None.

Fixpoint digits_value (s : string) (acc : N) : option N :=
  match s with
  | EmptyString => Some acc
  | String c s' =>
      match digit_of c with
      | Some d => digits_value s' (10 * acc + d)%N
      | None => None
      end
  end.

Definition array_index (k : string) : option N :=
  match k with
  | EmptyString => None
  | String c rest =>
      if Ascii.eqb c "0"%char && negb (String.eqb rest "") then None
      else match digits_value k 0%N with
           | Some n => if (n <? 2 ^ 32 - 1)%N then Some n else None
           | None => None
           end
  end.

Definition indexed_entries (o : object) : list (N * (string * prim)) :=
  omap (λ e, match array_index e.1 with Some n => Some (n, e) | None => None end) o.

(** [Object.entries(o)] *)
Definition Object_entries (o : object) : list (string * prim) :=
  (Array_sort (λ a b, Z.of_N a.1 - Z.of_N b.1)%Z (indexed_entries o)).*2
  ++ filter (λ e, array_index e.1 = None) o.

End JS.

(** ** docker_scan.mjs *)

Module DockerScan.
Import JS.

(** *** The scanner's JSON report

    Only the fields the script reads.  [None] stands for a field that is
    missing (or null), which the script tests for before use.  A report
    whose shape makes the traversal itself throw (a null entry, a number
    where an array is due) is outside this type. *)

Record Vulnerability : Type := {
  VulnerabilityID : string;
  Severity : string;
  Title : option string;
  PkgName : option string
}.

Record Result : Type := { Vulnerabilities : option (list Vulnerability) }.

Record Report : Type := { Results : option (list Result) }.

(** What is found at [trivyJsonFile] once the scanner has run. *)
Inductive json_file : Type :=
  | Absent
  | Unreadable
  | Parsed (jsonData : Report).

(** Everything the script takes from outside: the configuration and build
    metadata settled before the scan (lines 9-83), the clock, the exit
    status of the two scanner runs and the JSON file they leave behind.
    A size is the text the template prints for it; [None] stands for a
    falsy value. *)
Record env : Type := {
  fullImageName : string;
  compressedSize : option string;
  uncompressedSize : option string;
  now : string;
  trivyReportFile : string;
  trivyJsonFile : string;
  summaryFile : string;
  trivy_text_ok : bool;
  trivy_json_ok : bool;
  json : json_file
}.

(** *** The world of the script *)

Record globals : Type := {
  scanSuccess : bool;
  vulnCounts : object;
  totalVulns : nat;
  uniqueCves : nat
}.

Record world : Type := {
  vars : globals;
  terminal : list string;
  files : list (string * string)
}.

Definition initial_globals : globals :=
  {| scanSuccess := true; vulnCounts := []; totalVulns := 0; uniqueCves := 0 |}.

Definition initial_world : world :=
  {| vars := initial_globals; terminal := []; files := [] |}.

Definition with_vars (f : globals → globals) (w : world) : world :=
  {| vars := f (vars w); terminal := terminal w; files := files w |}.

Definition set_scanSuccess (b : bool) : M world unit :=
  modify (with_vars (λ g, {| scanSuccess := b; vulnCounts := vulnCounts g;
                             totalVulns := totalVulns g; uniqueCves := uniqueCves g |})).

Definition set_vulnCounts (o : object) : M world unit :=
  modify (with_vars (λ g, {| scanSuccess := scanSuccess g; vulnCounts := o;
                             totalVulns := totalVulns g; uniqueCves := uniqueCves g |})).

Definition incr_totalVulns : M world unit :=
  modify (with_vars (λ g, {| scanSuccess := scanSuccess g; vulnCounts := vulnCounts g;
                             totalVulns := S (totalVulns g); uniqueCves := uniqueCves g |})).

Definition set_uniqueCves (n : nat) : M world unit :=
  modify (with_vars (λ g, {| scanSuccess := scanSuccess g; vulnCounts := vulnCounts g;
                             totalVulns := totalVulns g; uniqueCves := n |})).

(** [echo(text)]; the colours of chalk are left out of the text. *)
Definition echo (text : string) : M world unit :=
  modify (λ w, {| vars := vars w; terminal := terminal w ++ [text]; files := files w |}).

(** [await fs.writeFile(name, content)] *)
Definition writeFile (name content : string) : M world unit :=
  modify (λ w, {| vars := vars w; terminal := terminal w;
                  files := files w ++ [(name, content)] |}).

(** [await $`...`] throws when the command exits with an error. *)
Definition sh (ok : bool) : M world unit :=
  if ok then ret tt else throw "ProcessOutput".

Definition pathExists (f : json_file) : bool :=
  match f with Absent => false | _ => true end.

Definition readJson (f : json_file) : M world Report :=
  match f with
  | Parsed jsonData => ret jsonData
  | Unreadable => throw "SyntaxError"
  | Absent => throw "ENOENT"
  end.

(** [v || d] and the truth of [v] for an optional text. *)
Definition or_else (v : option string) (d : string) : string :=
  match v with
  | Some s => if String.eqb s "" then d else s
  | None => d
  end.

Definition truthy (v : option string) : bool :=
  match v with
  | Some s => negb (String.eqb s "")
  | None => false
  end.

(** *** Lines 85-105: run the scanner

    Line 87 calls [spinner(text).start()].  The [spinner] of zx is the
    asynchronous function that local_build.mjs awaits with a callback (its
    line 121): what it returns is a promise, and a promise has no [start],
    so the call throws a TypeError and the module stops there.  This is
    [start_spinner], and [script] below is the script as it runs.

    [try_scan] is lines 89-105 as they read, for a spinner that had started
    and whose [succeed] and [warn] print their text: the [let] declarations
    of lines 89-92 set the four variables, then the scanner runs twice.
    [run_trivy] is line 86 followed by these lines, without the call of
    line 87. *)

Definition start_spinner : M world unit := throw "TypeError".

Definition try_scan (e : env) : M world unit :=
  modify (with_vars (λ _, initial_globals)) ;;
  try_catch
    (sh (trivy_text_ok e) ;;
     sh (trivy_json_ok e) ;;
     echo "Vulnerability scan completed")
    (λ _,
     echo "Scan completed with warnings" ;;
     set_scanSuccess false).

Definition run_trivy (e : env) : M world unit :=
  echo "INFO: Scanning image with Trivy..." ;;
  try_scan e.

(** *** Lines 107-131: count the vulnerabilities of the JSON report *)

Definition count_vuln (vuln : Vulnerability) (acc : object * gset string)
    : M world (object * gset string) :=
  let severityMap := Put acc.1 (Severity vuln) (or0_plus1 (Get acc.1 (Severity vuln))) in
  incr_totalVulns ;;
  mret (severityMap, {[ VulnerabilityID vuln ]} ∪ acc.2).

Definition count_result (result : Result) (acc : object * gset string)
    : M world (object * gset string) :=
  match Vulnerabilities result with
  | Some vulns => for_of vulns count_vuln acc
  | None => mret acc
  end.

Definition parse_counts (e : env) : M world unit :=
  if pathExists (json e) then
    try_catch
      (jsonData ← readJson (json e);
       acc ← match Results jsonData with
             | Some results => for_of results count_result ([], ∅)
             | None => mret ([], ∅)
             end;
       set_vulnCounts acc.1 ;;
       set_uniqueCves (size acc.2))
      (λ _, echo "WARN: Could not parse JSON report")
  else mret tt.

(** *** Lines 136-172: the summary file *)

Definition order : list string := ["CRITICAL"; "HIGH"; "MEDIUM"; "LOW"; "UNKNOWN"].

Definition by_severity (a b : string * prim) : Z :=
  (indexOf order a.1 - indexOf order b.1)%Z.

Definition severity_line (entry : string * prim) : string :=
  entry.1 +:+ ": " +:+ ToString entry.2.

(** The expression under "Breakdown by Severity:" (lines 153-163). *)
Definition breakdown (vulnCounts : object) : string :=
  if (0 <? length (Object_entries vulnCounts))%nat
  then join nl (severity_line <$> Array_sort by_severity (Object_entries vulnCounts))
  else "No vulnerabilities found".

Definition summaryContent (e : env) (g : globals) : string :=
  join nl
    [ "Docker Image Security Scan Summary";
      "==================================";
      "Date: " +:+ now e;
      "Image: " +:+ fullImageName e;
      "";
      "Image Information:";
      "------------------";
      "Compressed Size:   " +:+ or_else (compressedSize e) "N/A" +:+ " MB";
      "Uncompressed Size: " +:+ or_else (uncompressedSize e) "N/A" +:+ " MB";
      "";
      "Vulnerability Summary:";
      "----------------------";
      "Total Vulnerabilities: " +:+ Number_toString (totalVulns g);
      "Unique CVEs: " +:+ Number_toString (uniqueCves g);
      "";
      "Breakdown by Severity:";
      breakdown (vulnCounts g);
      "";
      "Report Files:";
      "-------------";
      "Text Report: " +:+ trivyReportFile e;
      "JSON Report: " +:+ trivyJsonFile e;
      "This Summary: " +:+ summaryFile e;
      "" ].

Definition write_summary (e : env) : M world unit :=
  echo "INFO: Scan complete." ;;
  echo "-----------------------------------------------" ;;
  g ← gets vars;
  writeFile (summaryFile e) (summaryContent e g).

(** *** Lines 174-218: the summary on the terminal *)

(** The own properties of [severityColors] (lines 194-200). *)
Definition severityColors : list string := ["CRITICAL"; "HIGH"; "MEDIUM"; "LOW"; "UNKNOWN"].

(** A member of [Object.prototype] called as a function on a text, with
    [this] undefined as in every module: [constructor] wraps the text in an
    object that reads as the text, [isPrototypeOf] answers [false] for what
    is not an object, [toString] names the undefined receiver; the accessor
    [__proto__] gives an object, which cannot be called, and the other
    members throw when they convert their receiver to an object. *)
Definition call_member (name text : string) : M world string :=
  if String.eqb name "constructor" then mret text
  else if String.eqb name "isPrototypeOf" then mret "false"
  else if String.eqb name "toString" then mret "[object Undefined]"
  else throw "TypeError".

(** [colorFn(text)] for [colorFn = severityColors[severity] || chalk.white]
    (lines 203-204).  The functions of chalk give the text back, its colours
    being left out. *)
Definition colorFn (severity text : string) : M world string :=
  if existsb (String.eqb severity) severityColors then mret text
  else if inherited severity then call_member severity text
  else mret text.

Definition echo_severity (entry : string * prim) (_ : unit) : M world unit :=
  coloured ← colorFn entry.1 (entry.1 +:+ ": " +:+ ToString entry.2);
  echo ("   " +:+ coloured).

Definition final_output (e : env) : M world unit :=
  echo "" ;;
  echo "================ SCAN SUMMARY ================" ;;
  echo ("🔍 Scanned Image: " +:+ fullImageName e) ;;
  echo "" ;;
  (if truthy (compressedSize e) && truthy (uncompressedSize e) then
     echo "📏 Image Sizes:" ;;
     echo ("   Compressed:   " +:+ or_else (compressedSize e) "" +:+ " MB") ;;
     echo ("   Uncompressed: " +:+ or_else (uncompressedSize e) "" +:+ " MB") ;;
     echo ""
   else mret tt) ;;
  echo "🛡️  Vulnerability Summary:" ;;
  g ← gets vars;
  (if (totalVulns g =? 0)%nat then
     echo "   ✨ No vulnerabilities found!"
   else
     echo ("   Total: " +:+ Number_toString (totalVulns g) +:+ " vulnerabilities ("
           +:+ Number_toString (uniqueCves g) +:+ " unique CVEs)") ;;
     for_of (Object_entries (vulnCounts g)) echo_severity tt) ;;
  echo "" ;;
  echo "📄 Reports Generated:" ;;
  echo ("   Text Report:  " +:+ trivyReportFile e) ;;
  echo ("   JSON Report:  " +:+ trivyJsonFile e) ;;
  echo ("   Summary:      " +:+ summaryFile e) ;;
  echo "" ;;
  echo "💡 Tips:" ;;
  echo "   - Review the text report for human-readable details" ;;
  echo "   - Use the JSON report for automated processing" ;;
  echo "   - Check CRITICAL and HIGH severity vulnerabilities first" ;;
  echo "==============================================".

(** *** Lines 220-261: the first critical and high findings *)

Record finding : Type := {
  severity : string;
  id : string;
  title : string;
  pkgName : option string
}.

Definition is_critical_or_high (vuln : Vulnerability) : bool :=
  String.eqb (Severity vuln) "CRITICAL" || String.eqb (Severity vuln) "HIGH".

Definition push_vuln (acc : list finding) (vuln : Vulnerability) : list finding :=
  if is_critical_or_high vuln then
    acc ++ [ {| severity := Severity vuln;
                id := VulnerabilityID vuln;
                title := or_else (Title vuln) "No title";
                pkgName := PkgName vuln |} ]
  else acc.

Definition push_result (acc : list finding) (result : Result) : list finding :=
  match Vulnerabilities result with
  | Some vulns => foldl push_vuln acc vulns
  | None => acc
  end.

(** The array [criticalHighVulns] after the loops of lines 226-241. *)
Definition criticalHighVulns (jsonData : Report) : list finding :=
  match Results jsonData with
  | Some results => foldl push_result [] results
  | None => []
  end.

Definition echo_finding (vuln : finding) (_ : unit) : M world unit :=
  echo ("   " +:+ severity vuln +:+ ": " +:+ id vuln +:+ " - " +:+ title vuln) ;;
  (if truthy (pkgName vuln)
   then echo ("      Package: " +:+ or_else (pkgName vuln) "")
   else mret tt).

Definition top_findings (e : env) : M world unit :=
  g ← gets vars;
  if (0 <? totalVulns g)%nat && pathExists (json e) then
    try_catch
      (jsonData ← readJson (json e);
       let found := criticalHighVulns jsonData in
       if (0 <? length found)%nat then
         echo "" ;;
         echo "🚨 Top Critical/High Vulnerabilities:" ;;
         for_of (slice 0 5 found) echo_finding tt ;;
         (if (5 <? length found)%nat
          then echo ("   ... and " +:+ Number_toString (length found - 5) +:+ " more")
          else mret tt) ;;
         echo "" ;;
         echo ("Run cat " +:+ trivyReportFile e +:+ " to see the full report.")
       else mret tt)
      (λ _, mret tt)
  else mret tt.

(** *** The script from the scan onwards

    [main] is lines 86 and 89-261 as they read, that is the script for a
    spinner that had started; [script] is lines 85-261 with the call of
    line 87, which throws. *)

Definition main (e : env) : M world unit :=
  run_trivy e ;;
  parse_counts e ;;
  write_summary e ;;
  final_output e ;;
  top_findings e.

Definition run (e : env) : completion unit * world := main e initial_world.

Definition script (e : env) : M world unit :=
  echo "INFO: Scanning image with Trivy..." ;;
  start_spinner ;;
  try_scan e ;;
  parse_counts e ;;
  write_summary e ;;
  final_output e ;;
  top_findings e.

(** *** Lines 78-83: the names of the report files

    [iso] is the text of [new Date().toISOString()]. *)

(** [s.replace(/[class]/g, by)], one code unit at a time. *)
Fixpoint replace_all (class : ascii → bool) (by_char : ascii) (s : string) : string :=
  match s with
  | EmptyString => EmptyString
  | String c s' =>
      String (if class c then by_char else c) (replace_all class by_char s')
  end.

(** [s.slice(0, -n)] for [n > 0]. *)
Definition drop_last (n : nat) (s : string) : string :=
  String.substring 0 (String.length s - n) s.

(** The class [[a-zA-Z0-9-]] *)
Definition is_name_char (c : ascii) : bool :=
  let n := N_of_ascii c in
  ((97 <=? n)%N && (n <=? 122)%N) || ((65 <=? n)%N && (n <=? 90)%N)
  || ((48 <=? n)%N && (n <=? 57)%N) || (n =? 45)%N.

(** The class [[:.]] *)
Definition is_colon_or_dot (c : ascii) : bool :=
  Ascii.eqb c ":" || Ascii.eqb c ".".

Definition timestamp (iso : string) : string :=
  drop_last 5 (replace_all is_colon_or_dot "-" iso).

Definition safeImageName (fullImageName : string) : string :=
  replace_all (λ c, negb (is_name_char c)) "_" fullImageName.

Definition trivyReportFile_of (fullImageName iso : string) : string :=
  "trivy_report_" +:+ safeImageName fullImageName +:+ "_" +:+ timestamp iso +:+ ".txt".

Definition trivyJsonFile_of (fullImageName iso : string) : string :=
  "trivy_report_" +:+ safeImageName fullImageName +:+ "_" +:+ timestamp iso +:+ ".json".

Definition summaryFile_of (fullImageName iso : string) : string :=
  "scan_summary_" +:+ safeImageName fullImageName +:+ "_" +:+ timestamp iso +:+ ".txt".

(** *** Lines 11-13: the default name of the image

    [process_env] is [process.env]: the variables of the environment that
    are set, each with its text. *)

Definition imageBaseName (process_env : gmap string string) : string :=
  or_else (process_env !! "IMAGE_BASE_NAME") "n8n-local".

Definition imageTag (process_env : gmap string string) : string :=
  or_else (process_env !! "IMAGE_TAG") "dev".

Definition defaultImageName (process_env : gmap string string) : string :=
  imageBaseName process_env +:+ ":" +:+ imageTag process_env.

End DockerScan.

(** ** local_build.mjs *)

Module LocalBuild.
Import JS.

(** *** Numbers

    A Number is kept as the exact rational it stands for, in lowest terms,
    or is [NaN]; the infinities do not arise from the sizes the script
    handles.  The operations of this part are exact, as those of binary64
    are on whole numbers below [2^53] and on their multiples by powers of
    two; the operations that round are those of [Binary64] below. *)

Inductive number : Type :=
  | NaN
  | Fin (q : Q).

Definition mul (a b : number) : number :=
  match a, b with
  | Fin x, Fin y => Fin (Qred (x * y))
  | _, _ => NaN
  end.

Definition add (a b : number) : number :=
  match a, b with
  | Fin x, Fin y => Fin (Qred (x + y))
  | _, _ => NaN
  end.

(** [a / b]; the script divides by non-zero constants only. *)
Definition div (a b : number) : number :=
  match a, b with
  | Fin x, Fin y => if Qeq_bool y 0 then NaN else Fin (Qred (x / y))
  | _, _ => NaN
  end.

(** [a > b]: false as soon as one side is [NaN]. *)
Definition gt (a b : number) : bool :=
  match a, b with
  | Fin x, Fin y => negb (Qle_bool x y)
  | _, _ => false
  end.

(** An integer literal. *)
Definition int (z : Z) : number := Fin (z # 1).

(** *** Characters and texts

    The text given to [parseSizeToBytes] is read as a sequence of code units
    below 256. *)

Definition is_digit (c : ascii) : bool :=
  let n := N_of_ascii c in (48 <=? n)%N && (n <=? 57)%N.

(** The class [[\d.]] *)
Definition is_digit_or_dot (c : ascii) : bool := is_digit c || Ascii.eqb c ".".

(** The class [\s], on code units below 256: tab, line feed, vertical tab,
    form feed, carriage return, space and the no-break space. *)
Definition is_space (c : ascii) : bool :=
  let n := N_of_ascii c in
  ((9 <=? n)%N && (n <=? 13)%N) || (n =? 32)%N || (n =? 160)%N.

(** The longest prefix of [s] whose characters satisfy [p], and what follows. *)
Fixpoint span (p : ascii → bool) (s : string) : string * string :=
  match s with
  | EmptyString => (EmptyString, EmptyString)
  | String c s' =>
      if p c then let r := span p s' in (String c r.1, r.2)
      else (EmptyString, s)
  end.

Definition upper (c : ascii) : ascii :=
  let n := N_of_ascii c in
  if (97 <=? n)%N && (n <=? 122)%N then ascii_of_N (n - 32) else c.

(** [s.toUpperCase()], on the letters a-z. *)
Fixpoint toUpperCase (s : string) : string :=
  match s with
  | EmptyString => EmptyString
  | String c s' => String (upper c) (toUpperCase s')
  end.

Definition units : list string := ["GB"; "MB"; "M"; "KB"; "K"; "B"].

(** [sizeString.match(/^([\d.]+)\s*(GB|MB|M|KB|K|B)$/i)]: the two groups of
    the match, if there is one.  The three parts of the pattern draw on
    disjoint sets of characters, so the only way to match is to take the
    longest run of digits and dots, then the longest run of white space,
    and to find one of the units, in either case, as all that is left. *)
Definition size_match (sizeString : string) : option (string * string) :=
  let number_rest := span is_digit_or_dot sizeString in
  let space_rest := span is_space number_rest.2 in
  if String.eqb number_rest.1 "" then None
  else if existsb (String.eqb (toUpperCase space_rest.2)) units
       then Some (number_rest.1, space_rest.2)
       else None.

(** The value of a run of decimal digits. *)
Fixpoint digits_to_N (s : string) (acc : N) : N :=
  match s with
  | EmptyString => acc
  | String c s' => digits_to_N s' (10 * acc + (N_of_ascii c - 48))%N
  end.

Definition decimal (int_part frac_part : string) : Q :=
  Qred (Z.of_N (digits_to_N (int_part +:+ frac_part) 0)
        # Z.to_pos (10 ^ Z.of_nat (String.length frac_part))).

(** [parseFloat(s)] for a text of digits and dots, which is all the first
    group of the pattern can hold: the longest prefix that reads as a
    decimal literal (digits, then possibly a dot and digits; or a dot and at
    least one digit) gives the value, and there is none when no prefix does. *)
Definition parseFloat (s : string) : number :=
  let int_rest := span is_digit s in
  let whole := if String.eqb int_rest.1 "" then NaN else Fin (decimal int_rest.1 "") in
  match int_rest.2 with
  | String c after =>
      if Ascii.eqb c "." then
        let frac := (span is_digit after).1 in
        if String.eqb int_rest.1 "" && String.eqb frac "" then NaN
        else Fin (decimal int_rest.1 frac)
      else whole
  | EmptyString => whole
  end.

(** *** Lines 66-90: [parseSizeToBytes] *)

Definition echo (text : string) : M (list string) unit :=
  modify (λ terminal, terminal ++ [text]).

Definition parseSizeToBytes (sizeString : string) : M (list string) number :=
  match size_match sizeString with
  | None =>
      echo ("WARN: Could not parse size string '" +:+ sizeString
            +:+ "'. Returning 0 bytes.") ;;
      mret (int 0)
  | Some (match1, match2) =>
      let value := parseFloat match1 in
      let unit := toUpperCase match2 in
      if String.eqb unit "GB" then
        mret (mul (mul (mul value (int 1024)) (int 1024)) (int 1024))
      else if String.eqb unit "MB" || String.eqb unit "M" then
        mret (mul (mul value (int 1024)) (int 1024))
      else if String.eqb unit "KB" || String.eqb unit "K" then
        mret (mul value (int 1024))
      else if String.eqb unit "B" then
        mret value
      else mret (int 0)
  end.

(** *** [x.toFixed(f)]

    The sign, then the integer nearest to [|x| * 10^f] (the larger of two
    equally near ones) written with a point before its last [f] digits.
    Magnitudes from [10^21] on, which JavaScript writes with an exponent,
    are beyond any size in bytes and are written out in full here too. *)

Definition pad_left (width : nat) (s : string) : string :=
  String.string_of_list_ascii (replicate (width - String.length s) "0"%char) +:+ s.

Definition Z_toString (z : Z) : string := NilEmpty.string_of_uint (N.to_uint (Z.to_N z)).

Definition toFixed (f : nat) (x : number) : string :=
  match x with
  | NaN => "NaN"
  | Fin q =>
      let sign := if negb (Qle_bool 0 q) then "-" else "" in
      let scale := (10 ^ Z.of_nat f)%Z in
      let n := Qfloor (Qabs q * (scale # 1) + (1 # 2)) in
      let int_part := Z_toString (n / scale) in
      if (f =? 0)%nat then sign +:+ int_part
      else sign +:+ int_part +:+ "." +:+ pad_left f (Z_toString (n mod scale))
  end.

(** *** Lines 276-298: the estimate of the total image size *)

Definition bufferBytes : number := mul (mul (int 300) (int 1024)) (int 1024).

Definition estimate (compiledAppOutputBytes virtualSizeBytes : number)
    : M (list string) string :=
  if gt compiledAppOutputBytes (int 0) || gt virtualSizeBytes (int 0) then
    let estimatedTotalImageSizeMB :=
      toFixed 2 (div (add (add compiledAppOutputBytes virtualSizeBytes) bufferBytes)
                     (mul (int 1024) (int 1024))) in
    echo ("INFO: Estimated Total Image Size (App + Virtual + 300MB Buffer): "
          +:+ estimatedTotalImageSizeMB +:+ " MB") ;;
    mret estimatedTotalImageSizeMB
  else
    echo ("WARN: Could not calculate Estimated Total Image Size "
          +:+ "(missing compiled app size or virtual size).") ;;
    mret "N/A".

(** Line 278 and the estimate: from the text of [du] and the size that
    [docker image inspect] gave. *)
Definition estimate_total (compiledAppOutputSize : string) (virtualSizeBytes : number)
    : M (list string) string :=
  compiledAppOutputBytes ← parseSizeToBytes compiledAppOutputSize;
  estimate compiledAppOutputBytes virtualSizeBytes.

(** *** Lines 276-298 in the arithmetic of binary64

    The numbers of JavaScript are those of binary64: an operation gives its
    exact result rounded to the nearest number with a significand of 53
    bits, and to the one with an even significand when two are equally
    near.  The range of the exponents is left out, the sizes being far from
    it.  [add], [mul] and [div] above are exact; the operations below round,
    and [Binary64.estimate] is the estimate of lines 276-298 with them. *)

Module Binary64.

(** The integer nearest to [a / b], an even one when two are equally near,
    for [a] not negative and [b] positive. *)
Definition round_div (a b : Z) : Z :=
  let q := (a / b)%Z in
  let r := (a mod b)%Z in
  if (2 * r <? b)%Z then q
  else if (b <? 2 * r)%Z then (q + 1)%Z
  else if Z.even q then q else (q + 1)%Z.

(** The binary64 number nearest to [n / d], for [n] and [d] positive: with
    [e] the exponent of [n / d], its significand is [n / d * 2 ^ (52 - e)]
    rounded to an integer. *)
Definition nearest_pos (n d : Z) : Q :=
  let l := (Z.log2 n - Z.log2 d)%Z in
  let e := if (if 0 <=? l then d * 2 ^ l <=? n else d <=? n * 2 ^ (- l))%Z
           then l else (l - 1)%Z in
  let shift := (52 - e)%Z in
  if (0 <=? shift)%Z
  then Qred (round_div (n * 2 ^ shift) d # Z.to_pos (2 ^ shift))
  else Qred (round_div n (d * 2 ^ (- shift)) * 2 ^ (- shift) # 1).

Definition nearest (q : Q) : Q :=
  match Qnum q with
  | Z0 => 0
  | Zpos n => nearest_pos (Zpos n) (Zpos (Qden q))
  | Zneg n => Qred (- nearest_pos (Zpos n) (Zpos (Qden q)))
  end.

Definition mul (a b : number) : number :=
  match a, b with
  | Fin x, Fin y => Fin (nearest (x * y))
  | _, _ => NaN
  end.

Definition add (a b : number) : number :=
  match a, b with
  | Fin x, Fin y => Fin (nearest (x + y))
  | _, _ => NaN
  end.

Definition div (a b : number) : number :=
  match a, b with
  | Fin x, Fin y => if Qeq_bool y 0 then NaN else Fin (nearest (x / y))
  | _, _ => NaN
  end.

Definition bufferBytes : number := mul (mul (int 300) (int 1024)) (int 1024).

Definition estimate (compiledAppOutputBytes virtualSizeBytes : number)
    : M (list string) string :=
  if gt compiledAppOutputBytes (int 0) || gt virtualSizeBytes (int 0) then
    let estimatedTotalImageSizeMB :=
      toFixed 2 (div (add (add compiledAppOutputBytes virtualSizeBytes) bufferBytes)
                     (mul (int 1024) (int 1024))) in
    echo ("INFO: Estimated Total Image Size (App + Virtual + 300MB Buffer): "
          +:+ estimatedTotalImageSizeMB +:+ " MB") ;;
    mret estimatedTotalImageSizeMB
  else
    echo ("WARN: Could not calculate Estimated Total Image Size "
          +:+ "(missing compiled app size or virtual size).") ;;
    mret "N/A".

End Binary64.

(** *** Lines 35-45: the timers

    [timers] is the [Map] from names to the readings of [Date.now()], in
    milliseconds; [now] is the reading at the call. *)

Definition startTimer (name : string) (now : Z) (timers : gmap string Z)
    : gmap string Z :=
  <[name := now]> timers.

Definition getElapsedTime (name : string) (now : Z) (timers : gmap string Z) : Z :=
  match timers !! name with
  | Some start => if (start =? 0)%Z then 0%Z else ((now - start) / 1000)%Z
  | None => 0%Z
  end.

(** *** Lines 47-55: [formatDuration]

    [Math.floor] of a quotient is [Z.div], the operator [%] is [Z.rem]. *)

(** [String(z)] for an integer. *)
Definition Int_toString (z : Z) : string := NilZero.string_of_int (Z.to_int z).

Definition formatDuration (seconds : Z) : string :=
  let hours := (seconds / 3600)%Z in
  let minutes := (Z.rem seconds 3600 / 60)%Z in
  let secs := Z.rem seconds 60 in
  if (0 <? hours)%Z then
    Int_toString hours +:+ "h " +:+ Int_toString minutes +:+ "m "
    +:+ Int_toString secs +:+ "s"
  else if (0 <? minutes)%Z then
    Int_toString minutes +:+ "m " +:+ Int_toString secs +:+ "s"
  else Int_toString secs +:+ "s".

(** *** Lines 145-170: the patches kept for deployment

    [patchedDependencies] is the object read from package.json, its own
    properties in creation order. *)

Definition PATCHES_TO_KEEP : list string := ["pdfjs-dist"; "pkce-challenge"; "bull"].

(** [PATCHES_TO_KEEP.some((patchPrefix) => key.startsWith(patchPrefix))] *)
Definition shouldKeep (key : string) : bool :=
  existsb (λ patchPrefix, String.prefix patchPrefix key) PATCHES_TO_KEEP.

Definition keep_patch (filteredPatches : object) (entry : string * prim) : object :=
  if shouldKeep entry.1 then Put filteredPatches entry.1 entry.2 else filteredPatches.

(** The object [filteredPatches] after the loop of lines 162-168. *)
Definition filter_patches (patchedDependencies : object) : object :=
  foldl keep_patch [] (Object_entries patchedDependencies).

(** *** Lines 325-342: the estimate in the build summary

    The text of the estimate is read back with [parseFloat]; as it can carry
    a sign, the sign is read first. *)

Definition neg (a : number) : number :=
  match a with
  | Fin x => Fin (Qred (- x))
  | NaN => NaN
  end.

(** [parseFloat(s)] for a text that may start with a sign. *)
Definition parseFloat_signed (s : string) : number :=
  match s with
  | String c rest =>
      if Ascii.eqb c "-" then neg (parseFloat rest)
      else if Ascii.eqb c "+" then parseFloat rest
      else parseFloat s
  | EmptyString => parseFloat s
  end.

Definition report_estimate (estimatedTotalImageSizeMB : string) : M (list string) unit :=
  if negb (String.eqb estimatedTotalImageSizeMB "N/A") then
    echo ("   Estimated Total Image Size:     " +:+ estimatedTotalImageSizeMB +:+ " MB ("
          +:+ toFixed 2 (div (parseFloat_signed estimatedTotalImageSizeMB) (int 1024))
          +:+ " GB)") ;;
    echo ("     (Calculated as Compiled App Output Size + Docker Inspect Virtual Size "
          +:+ "+ ~300MB for other layers/overhead.)")
  else
    echo ("   Could not estimate total image size "
          +:+ "(missing compiled app size or virtual size).").

(** *** Lines 10-32: the configuration

    [process_env] is [process.env]; [config] is the object after the two
    assignments of lines 23 and 25.  [localArch] is the trimmed output of
    [uname -m]. *)

(** [process.env[name] || default] *)
Definition env_or (process_env : gmap string string) (name default : string) : string :=
  match process_env !! name with
  | Some text => if String.eqb text "" then default else text
  | None => default
  end.

(** A value inside a template literal. *)
Definition interpolate (v : value) : string :=
  match v with
  | undefined => "undefined"
  | Prim p => ToString p
  | Ref text => text
  end.

Definition config (process_env : gmap string string) : object :=
  let config :=
    [ ("appVersion", Str (env_or process_env "APP_VERSION_TAG" "1.97.0"));
      ("nodeVersion", Str (env_or process_env "NODE_VERSION_ARG" "20"));
      ("n8nReleaseType", Str (env_or process_env "N8N_RELEASE_TYPE_ARG" "stable"));
      ("launcherVersion", Str (env_or process_env "LAUNCHER_VERSION_ARG" "1.1.2"));
      ("dockerfilePath", Str "./docker/images/n8n/Dockerfile");
      ("imageBaseName", Str (env_or process_env "IMAGE_BASE_NAME" "n8n-local"));
      ("imageTag", Str (env_or process_env "IMAGE_TAG" "dev"));
      ("buildContext", Str ".");
      ("compiledAppDir", Str "./compiled_app_output") ] in
  let actualNodeVersionUsed := env_or process_env "NODE_VERSION_ARG" "22" in
  let config := Put config "nodeVersion" (Str actualNodeVersionUsed) in
  Put config "fullImageName"
      (Str (interpolate (Get config "imageBaseName") +:+ ":"
            +:+ interpolate (Get config "imageTag"))).

Definition defaultPlatform (localArch : string) : string :=
  if String.eqb localArch "arm64" || String.eqb localArch "aarch64"
  then "linux/arm64" else "linux/amd64".

Definition targetPlatform (process_env : gmap string string) (localArch : string) : string :=
  env_or process_env "OVERRIDE_TARGET_PLATFORM" (defaultPlatform localArch).

Definition builderPlatform (process_env : gmap string string) (localArch : string) : string :=
  env_or process_env "OVERRIDE_BUILDER_PLATFORM" (defaultPlatform localArch).

(** *** The timers of the build

    The calls of [startTimer] and [getElapsedTime] by the script, in the
    order of lines 110, 119, 126, 187, 193, 209, 252 and 303; [t0] to [t7]
    are the readings of [Date.now()] at these calls. *)

Record BuildTimes : Type := {
  packageBuildTime : Z;
  packageDeployTime : Z;
  dockerBuildTime : Z;
  totalBuildTime : Z
}.

Definition build_times (t0 t1 t2 t3 t4 t5 t6 t7 : Z) : BuildTimes :=
  let timers := startTimer "total_build" t0 ∅ in
  let timers := startTimer "package_build" t1 timers in
  let packageBuildTime := getElapsedTime "package_build" t2 timers in
  let timers := startTimer "package_deploy" t3 timers in
  let packageDeployTime := getElapsedTime "package_deploy" t4 timers in
  let timers := startTimer "docker_build" t5 timers in
  let dockerBuildTime := getElapsedTime "docker_build" t6 timers in
  let totalBuildTime := getElapsedTime "total_build" t7 timers in
  {| packageBuildTime := packageBuildTime;
     packageDeployTime := packageDeployTime;
     dockerBuildTime := dockerBuildTime;
     totalBuildTime := totalBuildTime |}.

End LocalBuild.

(** ** local_build_scan.sh *)

Module LocalBuildScan.
Import LocalBuild.

(** *** Lines 53-66: [format_duration]

    The arithmetic of the shell is that of C on 64-bit integers: the value
    of the argument wraps around at [2^63], [/] truncates towards zero
    ([Z.quot]) and [%] takes the sign of the dividend ([Z.rem]); with the
    divisors 3600 and 60 nothing overflows after that.  [printf] with [%d]
    writes the integer in decimal. *)

Definition wrap64 (z : Z) : Z := ((z + 2 ^ 63) mod 2 ^ 64 - 2 ^ 63)%Z.

Definition format_duration (total_seconds : Z) : string :=
  let total_seconds := wrap64 total_seconds in
  let hours := Z.quot total_seconds 3600 in
  let minutes := Z.quot (Z.rem total_seconds 3600) 60 in
  let seconds := Z.rem total_seconds 60 in
  if (0 <? hours)%Z then
    Int_toString hours +:+ "h " +:+ Int_toString minutes +:+ "m "
    +:+ Int_toString seconds +:+ "s"
  else if (0 <? minutes)%Z then
    Int_toString minutes +:+ "m " +:+ Int_toString seconds +:+ "s"
  else Int_toString seconds +:+ "s".

(** *** Lines 4-30: the configuration

    [environment] holds the variables that are set when the script starts;
    [LOCAL_ARCH] is the output of [uname -m]. *)

(** [${name:-default}]: the default stands in for a variable that is unset
    or empty. *)
Definition param_default (environment : gmap string string) (name default : string)
    : string :=
  match environment !! name with
  | Some text => if String.eqb text "" then default else text
  | None => default
  end.

Definition APP_VERSION_TAG (environment : gmap string string) : string :=
  param_default environment "APP_VERSION_TAG" "1.97.0".

Definition NODE_VERSION_ARG (environment : gmap string string) : string :=
  param_default environment "NODE_VERSION_ARG" "20".

Definition N8N_RELEASE_TYPE_ARG (environment : gmap string string) : string :=
  param_default environment "N8N_RELEASE_TYPE_ARG" "stable".

Definition LAUNCHER_VERSION_ARG (environment : gmap string string) : string :=
  param_default environment "LAUNCHER_VERSION_ARG" "1.1.2".

Definition IMAGE_BASE_NAME (environment : gmap string string) : string :=
  param_default environment "IMAGE_BASE_NAME" "n8n-local".

Definition IMAGE_TAG (environment : gmap string string) : string :=
  param_default environment "IMAGE_TAG" "dev".

Definition FULL_IMAGE_NAME (environment : gmap string string) : string :=
  IMAGE_BASE_NAME environment +:+ ":" +:+ IMAGE_TAG environment.

Definition DEFAULT_TARGET_PLATFORM (LOCAL_ARCH : string) : string :=
  if String.eqb LOCAL_ARCH "arm64" || String.eqb LOCAL_ARCH "aarch64"
  then "linux/arm64" else "linux/amd64".

Definition DEFAULT_BUILDER_PLATFORM (LOCAL_ARCH : string) : string :=
  if String.eqb LOCAL_ARCH "arm64" || String.eqb LOCAL_ARCH "aarch64"
  then "linux/arm64" else "linux/amd64".

Definition TARGET_PLATFORM_ARG (environment : gmap string string) (LOCAL_ARCH : string)
    : string :=
  param_default environment "OVERRIDE_TARGET_PLATFORM" (DEFAULT_TARGET_PLATFORM LOCAL_ARCH).

Definition BUILDER_PLATFORM_ARG (environment : gmap string string) (LOCAL_ARCH : string)
    : string :=
  param_default environment "OVERRIDE_BUILDER_PLATFORM" (DEFAULT_BUILDER_PLATFORM LOCAL_ARCH).

End LocalBuildScan.

(** ** Notions used to state the properties *)

Module Notions.
Import JS DockerScan LocalBuild.

(** The vulnerability records of a report, in the order of the report. *)
Definition records (jsonData : Report) : list Vulnerability :=
  match Results jsonData with
  | Some results => concat ((λ result, default [] (Vulnerabilities result)) <$> results)
  | None => []
  end.

(** How many of the records carry the severity [s]. *)
Definition occurrences (s : string) (vs : list Vulnerability) : nat :=
  length (filter (λ v, Severity v = s) vs).

(** What reading the count of a severity gives when [n] records carry it. *)
Definition count_value (n : nat) : value :=
  match n with
  | 0 => undefined
  | S _ => Prim (Num n)
  end.

(** What one record does to [severityMap], and the map after the records
    [vs]. *)
Definition tally_severity (o : object) (v : Vulnerability) : object :=
  Put o (Severity v) (or0_plus1 (Get o (Severity v))).

Definition counts_of (vs : list Vulnerability) : object := foldl tally_severity [] vs.

(** The world after [totalVulns] has been incremented [n] times. *)
Definition bump (n : nat) (w : world) : world :=
  with_vars (λ g, {| scanSuccess := scanSuccess g; vulnCounts := vulnCounts g;
                     totalVulns := n + totalVulns g; uniqueCves := uniqueCves g |}) w.

(** A step of the script that only prints: it completes normally and the
    variables and the files are as before. *)
Definition prints (m : M world unit) : Prop :=
  ∀ w, ∃ out,
    m w = (Normal tt,
           {| vars := vars w; terminal := terminal w ++ out; files := files w |}).

(** A step that only prints, whether it completes or throws: the variables
    and the files are as before. *)
Definition talks (m : M world unit) : Prop :=
  ∀ w, ∃ c out,
    m w = (c, {| vars := vars w; terminal := terminal w ++ out; files := files w |}).

(** The world in which line 107 is reached: the variables as lines 89-92
    declare them, [scanSuccess] as the scan left it. *)
Definition scanned (success : bool) : world :=
  {| vars := {| scanSuccess := success; vulnCounts := []; totalVulns := 0;
                uniqueCves := 0 |};
     terminal := [];
     files := [] |}.

(** The variables once the report has been counted, and the lines printed
    up to the writing of the summary. *)
Definition after_scan (e : env) : globals :=
  {| scanSuccess := trivy_text_ok e && trivy_json_ok e;
     vulnCounts :=
       match json e with Parsed jsonData => counts_of (records jsonData) | _ => [] end;
     totalVulns :=
       match json e with Parsed jsonData => length (records jsonData) | _ => 0 end;
     uniqueCves :=
       match json e with
       | Parsed jsonData =>
           size (list_to_set (C:=gset string) (VulnerabilityID <$> records jsonData))
       | _ => 0
       end |}.

Definition scan_lines (e : env) : list string :=
  [ "INFO: Scanning image with Trivy...";
    if trivy_text_ok e && trivy_json_ok e
    then "Vulnerability scan completed"
    else "Scan completed with warnings" ]
  ++ match json e with
     | Unreadable => ["WARN: Could not parse JSON report"]
     | _ => []
     end
  ++ [ "INFO: Scan complete.";
       "-----------------------------------------------" ].

(** The own property that [n] records of one severity leave behind. *)
Definition count_entry (n : nat) : option prim :=
  match n with
  | 0 => None
  | S _ => Some (Num n)
  end.

(** The sum of the values of an object, provided they are all numbers. *)
Fixpoint sum_counts (o : object) : option nat :=
  match o with
  | [] => Some 0
  | (_, Num n) :: o' => (λ m, n + m) <$> sum_counts o'
  | (_, Str _) :: _ => None
  end.

(** The entry that a critical or high record leaves in [criticalHighVulns]. *)
Definition to_finding (vuln : Vulnerability) : finding :=
  {| severity := Severity vuln;
     id := VulnerabilityID vuln;
     title := or_else (Title vuln) "No title";
     pkgName := PkgName vuln |}.

(** A comparator that orders by a key, and the order it sorts into. *)
Definition by_key {A} (key : A → Z) (a b : A) : Z := (key a - key b)%Z.
Definition key_le {A} (key : A → Z) (a b : A) : Prop := (key a ≤ key b)%Z.

(** The severities that occur among [vs], in the order of [order], each
    with the number of records that carry it. *)
Definition present (vs : list Vulnerability) : list (string * prim) :=
  (λ s, (s, Num (occurrences s vs))) <$> filter (λ s, 0 < occurrences s vs) order.

(** The two readings of the specification that the script does not follow:
    a list of findings sorted by severity rank, and a breakdown that shows
    the five severities whatever their counts. *)
Definition by_rank (a b : finding) : Z :=
  (indexOf order (severity a) - indexOf order (severity b))%Z.

Definition topFindings_sorted (jsonData : Report) : list finding :=
  take 5 (Array_sort by_rank (to_finding <$> filter is_critical_or_high (records jsonData))).

Definition breakdown_all_five (vs : list Vulnerability) : string :=
  join nl ((λ s, s +:+ ": " +:+ Number_toString (occurrences s vs)) <$> order).

(** The pattern of [parseSizeToBytes] read as a relation: [sizeString] is a
    non-empty run of digits and dots, white space, and a unit in either
    case.  [number] and [unit] are the two groups. *)
Definition all_chars (p : ascii → bool) (s : string) : Prop :=
  Forall (λ c, p c = true) (String.list_ascii_of_string s).

Definition Matches (sizeString number unit : string) : Prop :=
  ∃ space,
    sizeString = number +:+ space +:+ unit
    ∧ number ≠ ""
    ∧ all_chars is_digit_or_dot number
    ∧ all_chars is_space space
    ∧ toUpperCase unit ∈ units.

(** What stops a run of characters of a class: the end of the text or a
    character outside the class. *)
Definition stops (p : ascii → bool) (s : string) : Prop :=
  match s with
  | EmptyString => True
  | String c _ => p c = false
  end.

(** The multiplier of each unit, as the specification lists them. *)
Definition multiplier (unit : string) : Z :=
  if String.eqb unit "B" then 1
  else if String.eqb unit "K" || String.eqb unit "KB" then 1024
  else if String.eqb unit "M" || String.eqb unit "MB" then 1024 ^ 2
  else if String.eqb unit "GB" then 1024 ^ 3
  else 0.

Definition times (value : number) (m : Z) : number :=
  match value with
  | NaN => NaN
  | Fin q => Fin (Qred (q * (m # 1)))
  end.

Definition size_warning (sizeString : string) : string :=
  "WARN: Could not parse size string '" +:+ sizeString +:+ "'. Returning 0 bytes.".

(** The text of the estimate for [a] and [b] bytes: their sum with the
    300 MiB of overhead, in MiB with two decimals. *)
Definition estimated_MB (a b : Q) : string :=
  toFixed 2 (Fin ((a + b + 300 * 1024 * 1024) / (1024 * 1024))%Q).

Definition estimate_info (text : string) : string :=
  "INFO: Estimated Total Image Size (App + Virtual + 300MB Buffer): " +:+ text +:+ " MB".

Definition estimate_warning : string :=
  "WARN: Could not calculate Estimated Total Image Size "
  +:+ "(missing compiled app size or virtual size).".

(** *** Sample inputs *)

Definition vuln (i s p : string) : Vulnerability :=
  {| VulnerabilityID := i; Severity := s; Title := None; PkgName := Some p |}.

Definition report (groups : list (list Vulnerability)) : Report :=
  {| Results := Some ((λ vs, {| Vulnerabilities := Some vs |}) <$> groups) |}.

Definition sample_env (ok : bool) (f : json_file) : env :=
  {| fullImageName := "n8n-local:dev";
     compressedSize := Some "412.50";
     uncompressedSize := Some "1290.10";
     now := "Tue Jun 10 2025 10:00:00 GMT+0000";
     trivyReportFile := "trivy_report_n8n-local_dev_2025-06-10T10-00-00.txt";
     trivyJsonFile := "trivy_report_n8n-local_dev_2025-06-10T10-00-00.json";
     summaryFile := "scan_summary_n8n-local_dev_2025-06-10T10-00-00.txt";
     trivy_text_ok := ok;
     trivy_json_ok := ok;
     json := f |}.

(** Two high records of CVE-1 in different packages and result groups, and
    one critical record of CVE-2. *)
Definition three_records : Report :=
  report [ [vuln "CVE-1" "HIGH" "openssl"];
           [vuln "CVE-1" "HIGH" "libssl3"; vuln "CVE-2" "CRITICAL" "zlib"] ].

Definition one_negligible : Report := report [ [vuln "CVE-7" "NEGLIGIBLE" "bash"] ].

Definition one_high : Report := report [ [vuln "CVE-1" "HIGH" "openssl"] ].

Definition no_records : Report := report [].

Definition one_proto : Report := report [ [vuln "CVE-9" "__proto__" "bash"] ].

(** *** Further notions *)

(** The environment [e] with other exit statuses for the two scanner runs. *)
Definition with_status (text_ok json_ok : bool) (e : env) : env :=
  {| fullImageName := fullImageName e;
     compressedSize := compressedSize e;
     uncompressedSize := uncompressedSize e;
     now := now e;
     trivyReportFile := trivyReportFile e;
     trivyJsonFile := trivyJsonFile e;
     summaryFile := summaryFile e;
     trivy_text_ok := text_ok;
     trivy_json_ok := json_ok;
     json := json e |}.

(** The rank of an entry of the counts in the sort of the breakdown. *)
Definition severity_rank (entry : string * prim) : Z := indexOf order entry.1.

(** Starting the timers [others], given as names with clock readings, one
    after the other. *)
Definition start_all (others : list (string * Z)) (timers : gmap string Z)
    : gmap string Z :=
  foldl (λ ts other, startTimer other.1 other.2 ts) timers others.

(** The characters of the report file names: those of the class
    [[a-zA-Z0-9-]], the underscore and the dot. *)
Definition is_file_char (c : ascii) : bool :=
  is_name_char c || Ascii.eqb c "_" || Ascii.eqb c ".".

(** The last letters that a unit of the size pattern can end with. *)
Definition unit_endings : list ascii := ["B"; "M"; "K"]%char.

(** The characters that [safeImageName] leaves in a name: those of the
    class [[a-zA-Z0-9-]] and the underscore. *)
Definition is_safe_char (c : ascii) : bool :=
  is_name_char c || Ascii.eqb c "_".

(** The characters of the text of a date: those of the class
    [[a-zA-Z0-9-]], the colon and the dot. *)
Definition is_date_char (c : ascii) : bool :=
  is_name_char c || is_colon_or_dot c.

(** The lines of the build summary on the estimate. *)
Definition estimate_line (MB GB : string) : string :=
  "   Estimated Total Image Size:     " +:+ MB +:+ " MB (" +:+ GB +:+ " GB)".

Definition estimate_note : string :=
  "     (Calculated as Compiled App Output Size + Docker Inspect Virtual Size "
  +:+ "+ ~300MB for other layers/overhead.)".

Definition no_estimate_line : string :=
  "   Could not estimate total image size "
  +:+ "(missing compiled app size or virtual size).".

End Notions.

(** * Lemmas and theorems *)

(** ** The definitions on small inputs *)

Section Examples.
Import JS DockerScan LocalBuild Notions.

Example sort_keeps_ties_in_order :
  Array_sort (by_key (λ p : Z * string, p.1)) [(2, "a"); (1, "b"); (2, "c"); (1, "d")]%Z
  = [(1, "b"); (1, "d"); (2, "a"); (2, "c")]%Z.
Proof. reflexivity. Qed.

Example indexOf_found : indexOf order "MEDIUM" = 2%Z.
Proof. reflexivity. Qed.

Example indexOf_missing : indexOf order "NEGLIGIBLE" = (-1)%Z.
Proof. reflexivity. Qed.

Example entries_put_array_indices_first :
  Object_entries [("HIGH", Num 2); ("10", Num 1); ("LOW", Num 1); ("9", Num 3); ("07", Num 1)]
  = [("9", Num 3); ("10", Num 1); ("HIGH", Num 2); ("LOW", Num 1); ("07", Num 1)].
Proof. reflexivity. Qed.

Example count_twice :
  Put (Put [] "HIGH" (or0_plus1 (Get [] "HIGH"))) "HIGH"
      (or0_plus1 (Get [("HIGH", Num 1)] "HIGH"))
  = [("HIGH", Num 2)].
Proof. reflexivity. Qed.

Example count_inherited_name :
  Put [] "constructor" (or0_plus1 (Get [] "constructor"))
  = [("constructor", Str "function Object() { [native code] }1")].
Proof. reflexivity. Qed.

Example count_proto_is_lost : Put [] "__proto__" (or0_plus1 (Get [] "__proto__")) = [].
Proof. reflexivity. Qed.

Example unknown_severities_come_first :
  breakdown [("HIGH", Num 2); ("NEGLIGIBLE", Num 1); ("CRITICAL", Num 1)]
  = "NEGLIGIBLE: 1" +:+ nl +:+ "CRITICAL: 1" +:+ nl +:+ "HIGH: 2".
Proof. reflexivity. Qed.

Example size_match_lower_case : size_match "1.5 gb" = Some ("1.5", "gb").
Proof. reflexivity. Qed.

Example size_match_G_alone : size_match "1.2G" = None.
Proof. reflexivity. Qed.

Example size_match_trailing_space : size_match "12MB " = None.
Proof. reflexivity. Qed.

Example parseFloat_stops_at_second_dot : parseFloat "1.2.3" = Fin (6 # 5).
Proof. reflexivity. Qed.

Example parseFloat_leading_dot : parseFloat ".5" = Fin (1 # 2).
Proof. reflexivity. Qed.

Example parseFloat_only_dots : parseFloat ".." = NaN.
Proof. reflexivity. Qed.

Example toFixed_rounds : toFixed 2 (Fin (1234567 # 1000)) = "1234.57".
Proof. by vm_compute. Qed.

Example toFixed_pads : toFixed 2 (Fin (3 # 100)) = "0.03".
Proof. by vm_compute. Qed.

Example toFixed_NaN : toFixed 2 NaN = "NaN".
Proof. reflexivity. Qed.

Example estimate_total_from_du :
  estimate_total "512M" (int 0) [] = (Normal "812.00", [estimate_info "812.00"]).
Proof. by vm_compute. Qed.

Example estimate_total_G_alone :
  estimate_total "1.2G" (int 123456789) []
  = (Normal "417.74", [size_warning "1.2G"; estimate_info "417.74"]).
Proof. by vm_compute. Qed.

Example three_records_terminal_tail :
  drop 27 (terminal (run (sample_env true (Parsed three_records))).2)
  = [ "";
      "🚨 Top Critical/High Vulnerabilities:";
      "   HIGH: CVE-1 - No title";
      "      Package: openssl";
      "   HIGH: CVE-1 - No title";
      "      Package: libssl3";
      "   CRITICAL: CVE-2 - No title";
      "      Package: zlib";
      "";
      "Run cat trivy_report_n8n-local_dev_2025-06-10T10-00-00.txt to see the full report." ].
Proof. by vm_compute. Qed.

End Examples.

(** ** Facts about the script monad *)

Section Monad.
Import JS.
Context {W : Type}.

Lemma bind_normal {A B} (m : M W A) (k : A → M W B) w a w' :
  m w = (Normal a, w') → (m ≫= k) w = k a w'.
Proof. intros H. unfold mbind, M_bind, bind. by rewrite H. Qed.

Lemma bind_throw {A B} (m : M W A) (k : A → M W B) w e w' :
  m w = (Throw e, w') → (m ≫= k) w = (Throw e, w').
Proof. intros H. unfold mbind, M_bind, bind. by rewrite H. Qed.

Lemma try_catch_normal {A} (m : M W A) h w a w' :
  m w = (Normal a, w') → try_catch m h w = (Normal a, w').
Proof. intros H. unfold try_catch. by rewrite H. Qed.

Lemma try_catch_throw {A} (m : M W A) h w e w' :
  m w = (Throw e, w') → try_catch m h w = h e w'.
Proof. intros H. unfold try_catch. by rewrite H. Qed.

End Monad.

(** ** The counting loops of docker_scan.mjs *)

Section Counting.
Import JS DockerScan Notions.

Lemma bump_0 w : bump 0 w = w.
Proof. by destruct w as [[] ? ?]. Qed.

Lemma bump_S n w : bump n (bump 1 w) = bump (S n) w.
Proof. destruct w as [[] ? ?]. unfold bump, with_vars; simpl. do 2 f_equal. lia. Qed.

Lemma count_vuln_run v acc w :
  count_vuln v acc w
  = (Normal (tally_severity acc.1 v, {[ VulnerabilityID v ]} ∪ acc.2), bump 1 w).
Proof. reflexivity. Qed.

Lemma for_of_count_vuln vs : ∀ acc w,
  for_of vs count_vuln acc w
  = (Normal (foldl tally_severity acc.1 vs,
             list_to_set (VulnerabilityID <$> vs) ∪ acc.2),
     bump (length vs) w).
Proof.
  induction vs as [|v vs IH]; intros [o ids] w.
  - cbn. unfold ret. by rewrite bump_0, (left_id_L ∅ (∪)).
  - cbn [for_of]. unfold bind. rewrite count_vuln_run, IH. cbn [fst snd].
    rewrite bump_S. cbn [foldl length fmap list_fmap].
    rewrite list_to_set_cons. do 3 f_equal.
    by rewrite (assoc_L (∪)), (comm_L (∪) (list_to_set _)).
Qed.

Lemma bump_bump n m w : bump n (bump m w) = bump (m + n) w.
Proof. destruct w as [[] ? ?]. unfold bump, with_vars; simpl. do 2 f_equal. lia. Qed.

Lemma for_of_count_result rs : ∀ acc w,
  for_of rs count_result acc w
  = (let vs := concat ((λ result, default [] (Vulnerabilities result)) <$> rs) in
     (Normal (foldl tally_severity acc.1 vs,
              list_to_set (VulnerabilityID <$> vs) ∪ acc.2),
      bump (length vs) w)).
Proof.
  induction rs as [|r rs IH]; intros [o ids] w.
  - cbn. unfold ret. by rewrite bump_0, (left_id_L ∅ (∪)).
  - cbn [for_of]. unfold bind, count_result at 1.
    cbn [fmap list_fmap concat].
    destruct (Vulnerabilities r) as [vs|] eqn:Hr.
    + rewrite for_of_count_vuln, IH. cbn [fst snd default].
      rewrite foldl_app, length_app, fmap_app, bump_bump, list_to_set_app_L.
      do 3 f_equal. by rewrite (assoc_L (∪)), (comm_L (∪) (list_to_set _)).
    + cbn. by rewrite IH.
Qed.
End Counting.

(** ** The steps of docker_scan.mjs *)

Section Steps.
Import JS DockerScan Notions.

Lemma prints_ret : prints (mret tt).
Proof. intros [g t f]. exists []. cbn. unfold ret. by rewrite app_nil_r. Qed.

Lemma prints_echo text : prints (echo text).
Proof. intros w. by exists [text]. Qed.

Lemma prints_bind (m : M world unit) (k : unit → M world unit) :
  prints m → (∀ u, prints (k u)) → prints (m ≫= k).
Proof.
  intros Hm Hk w. destruct (Hm w) as [out1 H1].
  destruct (Hk tt {| vars := vars w; terminal := terminal w ++ out1; files := files w |})
    as [out2 H2].
  exists (out1 ++ out2). rewrite (bind_normal _ _ _ _ _ H1), H2. cbn.
  by rewrite app_assoc.
Qed.

Lemma prints_gets {A} (f : world → A) (k : A → M world unit) :
  (∀ a, prints (k a)) → prints (gets f ≫= k).
Proof. intros Hk w. destruct (Hk (f w) w) as [out H]. by exists out. Qed.

Lemma prints_if (b : bool) (m1 m2 : M world unit) :
  prints m1 → prints m2 → prints (if b then m1 else m2).
Proof. by destruct b. Qed.

Lemma prints_for_of {A} (l : list A) (body : A → unit → M world unit) :
  (∀ x, prints (body x tt)) → prints (for_of l body tt).
Proof.
  intros Hbody. induction l as [|x l IH].
  - apply prints_ret.
  - cbn [for_of]. apply (prints_bind (body x tt)); [done|]. by intros [].
Qed.

Lemma prints_try_readJson f (k : Report → M world unit) :
  (∀ jsonData, prints (k jsonData)) →
  prints (try_catch (readJson f ≫= k) (λ _, mret tt)).
Proof.
  intros Hk w. destruct f as [| |jsonData].
  - destruct (prints_ret w) as [out H]. by exists out.
  - destruct (prints_ret w) as [out H]. by exists out.
  - destruct (Hk jsonData w) as [out H]. exists out.
    by apply try_catch_normal.
Qed.

Ltac prints_step :=
  lazymatch goal with
  | |- prints (echo _) => apply prints_echo
  | |- prints (mret _) => apply prints_ret
  | |- prints (gets _ ≫= _) => apply prints_gets; intros ?
  | |- prints (_ ≫= _) => apply prints_bind; [|intros ?]
  | |- prints (if _ then _ else _) => apply prints_if
  | |- prints (for_of _ _ _) => apply prints_for_of; intros ?
  | |- prints (try_catch (readJson _ ≫= _) _) => apply prints_try_readJson; intros ?
  | |- prints (let _ := _ in _) => cbv zeta
  end.

Lemma prints_talks m : prints m → talks m.
Proof. intros Hm w. destruct (Hm w) as [out H]. by exists (Normal tt), out. Qed.

Lemma talks_bind (m : M world unit) (k : unit → M world unit) :
  talks m → (∀ u, talks (k u)) → talks (m ≫= k).
Proof.
  intros Hm Hk w. destruct (Hm w) as (c1 & out1 & H1). destruct c1 as [u|err].
  - destruct (Hk u {| vars := vars w; terminal := terminal w ++ out1; files := files w |})
      as (c2 & out2 & H2).
    exists c2, (out1 ++ out2). rewrite (bind_normal _ _ _ _ _ H1), H2. cbn.
    by rewrite app_assoc.
  - exists (Throw err), out1. by rewrite (bind_throw _ _ _ _ _ H1).
Qed.

Lemma talks_gets {A} (f : world → A) (k : A → M world unit) :
  (∀ a, talks (k a)) → talks (gets f ≫= k).
Proof. intros Hk w. destruct (Hk (f w) w) as (c & out & H). by exists c, out. Qed.

Lemma talks_if (b : bool) (m1 m2 : M world unit) :
  talks m1 → talks m2 → talks (if b then m1 else m2).
Proof. by destruct b. Qed.

Lemma talks_for_of {A} (l : list A) (body : A → unit → M world unit) :
  (∀ x, talks (body x tt)) → talks (for_of l body tt).
Proof.
  intros Hbody. induction l as [|x l IH].
  - apply prints_talks, prints_ret.
  - cbn [for_of]. apply (talks_bind (body x tt)); [done|]. by intros [].
Qed.

(** What the call of [colorFn] leaves of a line of the terminal. *)
Lemma echo_severity_run entry w :
  echo_severity entry tt w
  = match colorFn entry.1 (severity_line entry) w with
    | (Normal coloured, _) =>
        (Normal tt, {| vars := vars w; terminal := terminal w ++ ["   " +:+ coloured];
                       files := files w |})
    | (Throw err, _) => (Throw err, w)
    end.
Proof.
  unfold echo_severity, colorFn, call_member, severity_line.
  repeat match goal with |- context [if ?b then _ else _] => destruct b end;
    reflexivity.
Qed.

Lemma talks_echo_severity entry : talks (echo_severity entry tt).
Proof.
  intros w. rewrite echo_severity_run.
  destruct (colorFn entry.1 (severity_line entry) w) as [[coloured|err] w'].
  - by eexists _, _.
  - exists (Throw err), []. rewrite app_nil_r. by destruct w.
Qed.

Ltac talks_step :=
  lazymatch goal with
  | |- talks (echo _) => apply prints_talks, prints_echo
  | |- talks (mret _) => apply prints_talks, prints_ret
  | |- talks (echo_severity _ _) => apply talks_echo_severity
  | |- talks (gets _ ≫= _) => apply talks_gets; intros ?
  | |- talks (_ ≫= _) => apply talks_bind; [|intros ?]
  | |- talks (if _ then _ else _) => apply talks_if
  | |- talks (for_of _ _ _) => apply talks_for_of; intros ?
  end.

Lemma talks_final_output e : talks (final_output e).
Proof. unfold final_output. repeat talks_step. Qed.

Lemma prints_top_findings e : prints (top_findings e).
Proof. unfold top_findings, echo_finding. repeat prints_step. Qed.

Lemma run_trivy_run e w :
  run_trivy e w
  = (Normal tt,
     {| vars := {| scanSuccess := trivy_text_ok e && trivy_json_ok e;
                   vulnCounts := []; totalVulns := 0; uniqueCves := 0 |};
        terminal := terminal w
                    ++ [ "INFO: Scanning image with Trivy...";
                         if trivy_text_ok e && trivy_json_ok e
                         then "Vulnerability scan completed"
                         else "Scan completed with warnings" ];
        files := files w |}).
Proof.
  unfold run_trivy, try_scan.
  destruct (trivy_text_ok e), (trivy_json_ok e);
    cbv [mbind M_bind bind mret M_ret ret throw try_catch modify echo
         set_scanSuccess with_vars sh vars terminal files initial_globals andb];
    by rewrite <- app_assoc.
Qed.


Lemma parse_counts_run e w :
  parse_counts e w
  = (Normal tt,
     match json e with
     | Absent => w
     | Unreadable =>
         {| vars := vars w;
            terminal := terminal w ++ ["WARN: Could not parse JSON report"];
            files := files w |}
     | Parsed jsonData =>
         {| vars := {| scanSuccess := scanSuccess (vars w);
                       vulnCounts := counts_of (records jsonData);
                       totalVulns := length (records jsonData) + totalVulns (vars w);
                       uniqueCves := size (list_to_set (C:=gset string)
                                             (VulnerabilityID <$> records jsonData)) |};
            terminal := terminal w;
            files := files w |}
     end).
Proof.
  unfold parse_counts. destruct (json e) as [| |[results]]; try reflexivity.
  cbn [pathExists readJson]. unfold records, counts_of. cbn [Results].
  apply try_catch_normal.
  unfold mbind, M_bind. unfold bind at 1. cbn [ret].
  destruct results as [results|].
  - unfold bind at 1. cbn [Results]. rewrite for_of_count_result.
    destruct w as [[] ? ?]. cbn. by rewrite (right_id_L ∅ (∪)).
  - destruct w as [[] ? ?]. reflexivity.
Qed.

Lemma write_summary_run e w :
  write_summary e w
  = (Normal tt,
     {| vars := vars w;
        terminal := terminal w ++ ["INFO: Scan complete.";
                                   "-----------------------------------------------"];
        files := files w ++ [(summaryFile e, summaryContent e (vars w))] |}).
Proof.
  cbv [write_summary mbind M_bind bind mret M_ret ret modify echo gets writeFile
       vars terminal files].
  by rewrite <- app_assoc.
Qed.


(** From the writing of the summary on the script only prints, whether it
    completes or throws on the terminal. *)
Lemma run_spec e :
  ∃ c out, run e = (c,
                    {| vars := after_scan e;
                       terminal := scan_lines e ++ out;
                       files := [(summaryFile e, summaryContent e (after_scan e))] |}).
Proof.
  unfold run, main.
  rewrite (bind_normal _ _ _ _ _ (run_trivy_run e _)); cbv beta.
  rewrite (bind_normal _ _ _ _ _ (parse_counts_run e _)); cbv beta.
  rewrite (bind_normal _ _ _ _ _ (write_summary_run e _)); cbv beta.
  match goal with |- context [ (final_output e ≫= ?k) ?w ] =>
    destruct (talks_bind (final_output e) k (talks_final_output e)
                (λ _, prints_talks _ (prints_top_findings e)) w) as (c & out & H)
  end.
  rewrite H. exists c, out.
  unfold after_scan, scan_lines.
  destruct (json e); cbn [vars terminal files app initial_world initial_globals scanSuccess];
    rewrite ?Nat.add_0_r, <- ?app_assoc; reflexivity.
Qed.

(** The script as it runs stops at line 87. *)
Lemma script_run e w :
  script e w
  = (Throw "TypeError",
     {| vars := vars w;
        terminal := terminal w ++ ["INFO: Scanning image with Trivy..."];
        files := files w |}).
Proof. reflexivity. Qed.

End Steps.

(** ** The severity counts *)

Section Objects.
Import JS DockerScan Notions.

Lemma proto_inherited : inherited "__proto__" = true.
Proof. reflexivity. Qed.

Lemma Put_own o k p : inherited k = false → Put o k p = DefineOwn o k p.
Proof.
  intros Hk. unfold Put. destruct (String.eqb_spec k "__proto__") as [->|]; [|done].
  by rewrite proto_inherited in Hk.
Qed.

Lemma Get_own o k :
  inherited k = false →
  Get o k = match assoc o k with Some p => Prim p | None => undefined end.
Proof.
  unfold Get, inherited. intros Hk. destruct (assoc o k); [done|].
  by destruct (assoc ObjectPrototype k).
Qed.

Lemma assoc_DefineOwn o k p k' :
  assoc (DefineOwn o k p) k' = if String.eqb k k' then Some p else assoc o k'.
Proof.
  induction o as [|[k0 p0] o IH]; cbn.
  - by destruct (String.eqb k k').
  - destruct (String.eqb_spec k0 k) as [->|Hne]; cbn.
    + by destruct (String.eqb k k').
    + rewrite IH. destruct (String.eqb_spec k0 k') as [->|]; [|done].
      by destruct (String.eqb_spec k k') as [->|].
Qed.

Lemma assoc_Put_other o k p k' : k ≠ k' → assoc (Put o k p) k' = assoc o k'.
Proof.
  intros Hne. unfold Put. destruct (String.eqb k "__proto__"); [done|].
  rewrite assoc_DefineOwn. by destruct (String.eqb_spec k k').
Qed.

(** One record moves the count of its own severity by one and leaves the
    other counts alone. *)
Lemma assoc_tally o v k n :
  inherited k = false →
  assoc o k = count_entry n →
  assoc (tally_severity o v) k
  = count_entry (n + (if decide (Severity v = k) then 1 else 0)).
Proof.
  intros Hk Ho. unfold tally_severity. destruct (decide (Severity v = k)) as [->|Hne].
  - rewrite Put_own, Get_own, assoc_DefineOwn, String.eqb_refl, Ho by done.
    destruct n as [|n]; cbn; [done|]. do 2 f_equal; lia.
  - rewrite assoc_Put_other, Nat.add_0_r by done. done.
Qed.

Lemma occurrences_cons k v vs :
  occurrences k (v :: vs) = (if decide (Severity v = k) then 1 else 0) + occurrences k vs.
Proof. unfold occurrences. rewrite filter_cons. by destruct (decide (Severity v = k)). Qed.

Lemma assoc_foldl_tally k vs : ∀ o n,
  inherited k = false →
  assoc o k = count_entry n →
  assoc (foldl tally_severity o vs) k = count_entry (n + occurrences k vs).
Proof.
  induction vs as [|v vs IH]; intros o n Hk Ho; cbn [foldl].
  - by rewrite Nat.add_0_r.
  - rewrite occurrences_cons, Nat.add_assoc. apply IH; [done|]. by apply assoc_tally.
Qed.

Lemma assoc_counts_of k vs :
  inherited k = false → assoc (counts_of vs) k = count_entry (occurrences k vs).
Proof. intros Hk. by apply (assoc_foldl_tally k vs [] 0). Qed.

Lemma Get_counts_of k vs :
  inherited k = false → Get (counts_of vs) k = count_value (occurrences k vs).
Proof.
  intros Hk. rewrite Get_own, assoc_counts_of by done.
  by destruct (occurrences k vs).
Qed.

(** The sum of the counts goes up by one with each record. *)
Lemma sum_counts_DefineOwn k o : ∀ n,
  sum_counts o = Some n →
  sum_counts (DefineOwn o k (or0_plus1 (match assoc o k with
                                        | Some p => Prim p
                                        | None => undefined
                                        end))) = Some (S n).
Proof.
  induction o as [|[k0 [m|s]] o IH]; intros n Hn; cbn in *; try done.
  - by simplify_eq.
  - destruct (sum_counts o) as [n'|] eqn:Ho; [|done]. cbn in Hn. simplify_eq.
    destruct (String.eqb k0 k); cbn.
    + rewrite Ho. cbn. f_equal. lia.
    + rewrite (IH n') by done. cbn. f_equal. lia.
Qed.

Lemma sum_counts_foldl_tally vs : ∀ o n,
  Forall (λ v, inherited (Severity v) = false) vs →
  sum_counts o = Some n →
  sum_counts (foldl tally_severity o vs) = Some (length vs + n).
Proof.
  induction vs as [|v vs IH]; intros o n Hvs Ho; cbn [foldl length]; [done|].
  inversion_clear Hvs as [|? ? Hv Hvs'].
  replace (S (length vs) + n) with (length vs + S n) by lia.
  apply IH; [done|]. unfold tally_severity.
  rewrite Put_own, Get_own by done. by apply sum_counts_DefineOwn.
Qed.

Lemma sum_counts_of vs :
  Forall (λ v, inherited (Severity v) = false) vs →
  sum_counts (counts_of vs) = Some (length vs).
Proof.
  intros Hvs. unfold counts_of.
  rewrite (sum_counts_foldl_tally vs [] 0) by done. f_equal. lia.
Qed.

Lemma size_ids_le (ids : list string) :
  size (list_to_set (C:=gset string) ids) = length (remove_dups ids).
Proof.
  rewrite <- (size_list_to_set (C:=gset string) (remove_dups ids))
    by apply NoDup_remove_dups.
  f_equal. apply set_eq. intros x.
  by rewrite !elem_of_list_to_set, elem_of_remove_dups.
Qed.

Lemma length_remove_dups_le {A} `{EqDecision A} (l : list A) :
  length (remove_dups l) ≤ length l.
Proof.
  induction l as [|x l IH]; cbn; [done|].
  destruct (decide_rel elem_of x l); cbn; lia.
Qed.
End Objects.

(** ** The scan as a whole *)

Section Scan.
Import JS DockerScan Notions.

Lemma run_vars e : vars (run e).2 = after_scan e.
Proof. destruct (run_spec e) as (c & out & ->). done. Qed.

Lemma run_files e :
  files (run e).2 = [(summaryFile e, summaryContent e (vars (run e).2))].
Proof. destruct (run_spec e) as (c & out & ->). done. Qed.

Lemma push_vuln_filter vs : ∀ acc,
  foldl push_vuln acc vs = acc ++ (to_finding <$> filter is_critical_or_high vs).
Proof.
  induction vs as [|v vs IH]; intros acc; cbn [foldl].
  - by rewrite app_nil_r.
  - rewrite IH, filter_cons. unfold push_vuln. case_decide as Hv.
    + apply Is_true_true in Hv. rewrite Hv. by rewrite <- app_assoc.
    + apply Is_true_false in Hv. by rewrite Hv.
Qed.

Lemma push_result_filter rs : ∀ acc,
  foldl push_result acc rs
  = acc ++ (to_finding <$> filter is_critical_or_high
              (concat ((λ result, default [] (Vulnerabilities result)) <$> rs))).
Proof.
  induction rs as [|r rs IH]; intros acc; cbn [foldl fmap list_fmap concat].
  - by rewrite app_nil_r.
  - rewrite IH, filter_app, fmap_app, app_assoc. f_equal.
    unfold push_result. destruct (Vulnerabilities r) as [vs|]; cbn [default].
    + apply push_vuln_filter.
    + by rewrite app_nil_r.
Qed.

(** [criticalHighVulns] holds the critical and high records, in the order of
    the report. *)
Lemma criticalHighVulns_filter jsonData :
  criticalHighVulns jsonData
  = to_finding <$> filter is_critical_or_high (records jsonData).
Proof.
  unfold criticalHighVulns, records. destruct (Results jsonData) as [rs|]; [|done].
  apply (push_result_filter rs []).
Qed.

End Scan.

(** ** Sorting with a comparator that orders by a key *)

Section Sorting.
Import JS Notions.
Context {A : Type}.

Lemma sort_insert_Permutation (cmp : A → A → Z) x l : sort_insert cmp x l ≡ₚ x :: l.
Proof.
  induction l as [|y l IH]; cbn; [done|].
  destruct (cmp x y <=? 0)%Z; [done|]. rewrite IH. apply Permutation_swap.
Qed.

Lemma Array_sort_Permutation (cmp : A → A → Z) l : Array_sort cmp l ≡ₚ l.
Proof.
  induction l as [|x l IH]; cbn; [done|].
  change (foldr (sort_insert cmp) [] l) with (Array_sort cmp l).
  by rewrite sort_insert_Permutation, IH.
Qed.

Context (key : A → Z).

Lemma sort_insert_sorted x l :
  StronglySorted (key_le key) l → StronglySorted (key_le key) (sort_insert (by_key key) x l).
Proof.
  induction 1 as [|y l Hl IH Hy]; cbn.
  - repeat constructor.
  - unfold by_key at 1. destruct (Z.leb_spec (key x - key y) 0) as [Hle|Hgt].
    + constructor; [by constructor|]. constructor; [unfold key_le; lia|].
      eapply Forall_impl; [exact Hy|]. unfold key_le. intros z Hz. cbn in Hz. lia.
    + constructor; [done|].
      rewrite sort_insert_Permutation. constructor; [unfold key_le; lia|done].
Qed.

Lemma Array_sort_sorted l : StronglySorted (key_le key) (Array_sort (by_key key) l).
Proof.
  induction l as [|x l IH]; cbn; [constructor|]. by apply sort_insert_sorted.
Qed.

(** The sort is stable: elements of equal key keep their order. *)
Lemma sort_insert_stable k x l :
  filter (λ a, key a = k) (sort_insert (by_key key) x l)
  = filter (λ a, key a = k) (x :: l).
Proof.
  induction l as [|y l IH]; cbn [sort_insert]; [done|].
  unfold by_key at 1. destruct (Z.leb_spec (key x - key y) 0) as [Hle|Hgt]; [done|].
  rewrite filter_cons, IH, !filter_cons.
  repeat case_decide; try done; lia.
Qed.

Lemma Array_sort_stable k l :
  filter (λ a, key a = k) (Array_sort (by_key key) l) = filter (λ a, key a = k) l.
Proof.
  induction l as [|x l IH]; [done|].
  change (Array_sort (by_key key) (x :: l))
    with (sort_insert (by_key key) x (Array_sort (by_key key) l)).
  by rewrite sort_insert_stable, !filter_cons, IH.
Qed.

Lemma StronglySorted_filter (R : relation A) (P : A → Prop) `{∀ x, Decision (P x)} l :
  StronglySorted R l → StronglySorted R (filter P l).
Proof.
  induction 1 as [|x l Hl IH Hx]; [constructor|].
  rewrite filter_cons. case_decide; [|done].
  constructor; [done|]. apply Forall_forall. intros z Hz.
  apply list_elem_of_filter in Hz as [_ Hz]. by eapply Forall_forall in Hx.
Qed.
End Sorting.

(** ** The breakdown by severity *)

Section Breakdown.
Import JS DockerScan Notions.

Lemma assoc_elem_of {V} (o : list (string * V)) k p : assoc o k = Some p → (k, p) ∈ o.
Proof.
  induction o as [|[k0 p0] o IH]; cbn; [done|].
  destruct (String.eqb_spec k0 k) as [->|]; intros Hp.
  - simplify_eq. left.
  - right. auto.
Qed.

Lemma assoc_None {V} (o : list (string * V)) k : assoc o k = None ↔ k ∉ o.*1.
Proof.
  induction o as [|[k0 p0] o IH]; cbn.
  - split; [intros _; apply not_elem_of_nil|done].
  - rewrite not_elem_of_cons. destruct (String.eqb_spec k0 k) as [->|Hne].
    + split; [done|]. by intros [? _].
    + rewrite IH. split; [by split|by intros [_ ?]].
Qed.

Lemma elem_of_assoc {V} (o : list (string * V)) k p :
  NoDup o.*1 → (k, p) ∈ o → assoc o k = Some p.
Proof.
  induction o as [|[k0 p0] o IH]; cbn; intros Hnd Hin.
  - by apply not_elem_of_nil in Hin.
  - apply NoDup_cons in Hnd as [Hk0 Hnd]. apply elem_of_cons in Hin as [Heq|Hin].
    + simplify_eq. by rewrite String.eqb_refl.
    + destruct (String.eqb_spec k0 k) as [->|]; [|auto].
      destruct Hk0. apply list_elem_of_fmap. by exists (k, p).
Qed.

Lemma keys_DefineOwn o k p :
  (DefineOwn o k p).*1 = match assoc o k with Some _ => o.*1 | None => o.*1 ++ [k] end.
Proof.
  induction o as [|[k0 p0] o IH]; cbn; [done|].
  destruct (String.eqb_spec k0 k) as [->|]; cbn; [done|].
  rewrite IH. by destruct (assoc o k).
Qed.

Lemma NoDup_tally o v : NoDup o.*1 → NoDup (tally_severity o v).*1.
Proof.
  intros Hnd. unfold tally_severity, Put.
  destruct (String.eqb (Severity v) "__proto__"); [done|].
  rewrite keys_DefineOwn. destruct (assoc o (Severity v)) eqn:Ho; [done|].
  apply NoDup_app. split; [done|]. split; [|apply NoDup_singleton].
  intros k Hk Hk'. apply list_elem_of_singleton in Hk' as ->.
  by apply assoc_None in Ho.
Qed.

Lemma keys_tally o v k :
  k ∈ (tally_severity o v).*1 → k ∈ o.*1 ∨ k = Severity v.
Proof.
  unfold tally_severity, Put.
  destruct (String.eqb (Severity v) "__proto__"); [auto|].
  rewrite keys_DefineOwn. destruct (assoc o (Severity v)); [auto|].
  rewrite elem_of_app, list_elem_of_singleton. auto.
Qed.

Lemma NoDup_counts_of vs : NoDup (counts_of vs).*1.
Proof.
  unfold counts_of. assert (NoDup ([] : object).*1) as Hnil by constructor.
  revert Hnil. generalize ([] : object).
  induction vs as [|v vs IH]; intros o Ho; cbn; [done|]. by apply IH, NoDup_tally.
Qed.

Lemma keys_counts_of vs k : k ∈ (counts_of vs).*1 → k ∈ Severity <$> vs.
Proof.
  unfold counts_of.
  assert (∀ o, k ∈ (foldl tally_severity o vs).*1 → k ∈ o.*1 ∨ k ∈ Severity <$> vs) as H.
  { induction vs as [|v vs IH]; intros o; cbn; [auto|].
    intros Hk. apply IH in Hk as [Hk|Hk].
    - apply keys_tally in Hk as [Hk| ->]; [auto|]. right. left.
    - right. by right. }
  intros Hk. apply H in Hk as [Hk|Hk]; [|done]. by apply not_elem_of_nil in Hk.
Qed.

Lemma order_own k : k ∈ order → inherited k = false ∧ array_index k = None.
Proof.
  intros Hk. unfold order in Hk.
  repeat (apply elem_of_cons in Hk as [->|Hk]; [by vm_compute|]).
  by apply not_elem_of_nil in Hk.
Qed.

Lemma indexOf_order_inj k1 k2 :
  k1 ∈ order → k2 ∈ order → indexOf order k1 = indexOf order k2 → k1 = k2.
Proof.
  intros H1 H2. unfold order in H1, H2.
  repeat (apply elem_of_cons in H1 as [->|H1]);
    try (by apply not_elem_of_nil in H1);
    repeat (apply elem_of_cons in H2 as [->|H2]);
    try (by apply not_elem_of_nil in H2); by vm_compute.
Qed.

Lemma Object_entries_plain o :
  Forall (λ e, array_index e.1 = None) o → Object_entries o = o.
Proof.
  intros Ho. unfold Object_entries, indexed_entries.
  assert (omap (λ e : string * prim,
                  match array_index e.1 with Some n => Some (n, e) | None => None end) o
          = []) as ->.
  { induction Ho as [|e o He Ho IH]; cbn; [done|]. by rewrite He. }
  cbn [Array_sort foldr fmap list_fmap app].
  induction Ho as [|e o He Ho IH]; [done|].
  rewrite filter_cons, decide_True by done. by f_equal.
Qed.

(** The entries of the counts when all severities are known ones. *)
Lemma elem_of_counts_of vs k p :
  Forall (λ v, Severity v ∈ order) vs →
  (k, p) ∈ counts_of vs
  ↔ k ∈ order ∧ 0 < occurrences k vs ∧ p = Num (occurrences k vs).
Proof.
  intros Hvs. split.
  - intros Hin.
    assert (k ∈ order) as Hk.
    { assert (k ∈ (counts_of vs).*1) as Hkeys
        by (apply list_elem_of_fmap; by exists (k, p)).
      apply keys_counts_of, list_elem_of_fmap in Hkeys as (v & -> & Hv).
      by eapply Forall_forall in Hvs. }
    split; [done|].
    apply elem_of_assoc in Hin; [|apply NoDup_counts_of].
    rewrite assoc_counts_of in Hin by by apply order_own.
    destruct (occurrences k vs); cbn in Hin; [done|]. simplify_eq. split; [lia|done].
  - intros (Hk & Hpos & ->). apply assoc_elem_of.
    rewrite assoc_counts_of by by apply order_own.
    destruct (occurrences k vs); [lia|done].
Qed.

Lemma elem_of_present vs k p :
  (k, p) ∈ present vs ↔ k ∈ order ∧ 0 < occurrences k vs ∧ p = Num (occurrences k vs).
Proof.
  unfold present. rewrite list_elem_of_fmap. split.
  - intros (s & Heq & Hs). simplify_eq. apply list_elem_of_filter in Hs as [? ?]. auto.
  - intros (Hk & Hpos & ->). exists k. split; [done|]. by apply list_elem_of_filter.
Qed.

Lemma sorted_counts_of vs :
  Forall (λ v, Severity v ∈ order) vs →
  Array_sort by_severity (counts_of vs) = present vs.
Proof.
  intros Hvs. change by_severity with (by_key (λ e : string * prim, indexOf order e.1)).
  eapply (StronglySorted_unique_strong (key_le (λ e : string * prim, indexOf order e.1))).
  - intros [k1 p1] [k2 p2] H1 H2 H12 H21. unfold key_le in *. cbn [fst] in *.
    rewrite Array_sort_Permutation in H1.
    apply elem_of_counts_of in H1 as (Hk1 & _ & ->); [|done].
    apply elem_of_present in H2 as (Hk2 & _ & ->).
    assert (k1 = k2) as -> by (apply indexOf_order_inj; [done..|lia]). done.
  - apply Array_sort_sorted.
  - unfold present. eapply StronglySorted_fmap; [|apply StronglySorted_filter].
    + intros x y Hxy. exact Hxy.
    + unfold key_le, order. cbn [fst].
      repeat (constructor; [|repeat constructor; by vm_compute]). constructor.
  - rewrite Array_sort_Permutation. apply NoDup_Permutation.
    + eapply NoDup_fmap_1, NoDup_counts_of.
    + unfold present. apply (NoDup_fmap_1 fst).
      rewrite <- list_fmap_compose. unfold compose. cbn [fst].
      change (λ x : string, x) with (@Datatypes.id string). rewrite list_fmap_id.
      apply NoDup_filter. by apply (bool_decide_unpack _); vm_compute.
    + intros [k p]. by rewrite elem_of_counts_of, elem_of_present.
Qed.

Lemma breakdown_counts_of vs :
  Forall (λ v, Severity v ∈ order) vs →
  vs ≠ [] →
  breakdown (counts_of vs)
  = join nl ((λ s, s +:+ ": " +:+ Number_toString (occurrences s vs))
             <$> filter (λ s, 0 < occurrences s vs) order).
Proof.
  intros Hvs Hne. unfold breakdown.
  rewrite Object_entries_plain.
  2:{ apply Forall_forall. intros [k p] Hkp.
      apply elem_of_counts_of in Hkp as (Hk & _); [|done]. by apply order_own. }
  assert (counts_of vs ≠ []) as Hcounts.
  { destruct vs as [|v vs]; [done|]. pose proof (Forall_inv Hvs) as Hv. cbn in Hv.
    assert ((Severity v, Num (occurrences (Severity v) (v :: vs))) ∈ counts_of (v :: vs)) as Hin.
    { apply elem_of_counts_of; [done|]. split; [done|]. split; [|done].
      rewrite occurrences_cons, decide_True by done. lia. }
    intros Hnil. rewrite Hnil in Hin. by apply not_elem_of_nil in Hin. }
  destruct (counts_of vs) as [|entry o] eqn:Ho; [done|]. cbn [length Nat.ltb Nat.leb].
  rewrite <- Ho, sorted_counts_of by done. unfold present.
  by rewrite <- list_fmap_compose.
Qed.
End Breakdown.

(** ** The pattern of [parseSizeToBytes] *)

Section Pattern.
Import JS LocalBuild Notions.

Lemma all_chars_nil p : all_chars p "".
Proof. constructor. Qed.

Lemma all_chars_cons p c s : all_chars p (String c s) ↔ p c = true ∧ all_chars p s.
Proof. unfold all_chars. cbn [String.list_ascii_of_string]. by rewrite Forall_cons. Qed.

Lemma span_spec p s :
  s = (span p s).1 +:+ (span p s).2
  ∧ all_chars p (span p s).1
  ∧ stops p (span p s).2.
Proof.
  induction s as [|c s (IH1 & IH2 & IH3)]; cbn.
  - split; [reflexivity|]. split; [apply all_chars_nil|done].
  - destruct (p c) eqn:Hc; cbn [fst snd].
    + split; [change (String c s = String c ((span p s).1 +:+ (span p s).2)); by f_equal|].
      split; [|done]. by apply all_chars_cons.
    + split; [reflexivity|]. split; [apply all_chars_nil|done].
Qed.

Lemma span_app p a b :
  all_chars p a → stops p b → span p (a +:+ b) = (a, b).
Proof.
  intros Ha Hb. induction a as [|c a IH].
  - change ("" +:+ b) with b. destruct b as [|c b]; cbn in *; [done|]. by rewrite Hb.
  - change (String c a +:+ b) with (String c (a +:+ b)). cbn [span].
    apply all_chars_cons in Ha as [-> Ha]. by rewrite IH.
Qed.

Lemma space_not_digit_or_dot c : is_space c = true → is_digit_or_dot c = false.
Proof. destruct c as [[] [] [] [] [] [] [] []]; by vm_compute. Qed.

Lemma unit_letter c :
  upper c ∈ ["G"; "M"; "K"; "B"]%char → is_space c = false ∧ is_digit_or_dot c = false.
Proof.
  intros Hc. destruct c as [[] [] [] [] [] [] [] []]; try (by vm_compute);
    vm_compute in Hc;
    repeat (apply elem_of_cons in Hc as [?|Hc]; [done|]); by apply not_elem_of_nil in Hc.
Qed.

Lemma elem_of_units u :
  u ∈ units ↔ existsb (String.eqb u) units = true.
Proof.
  unfold units. cbn [existsb]. rewrite !orb_true_iff, !String.eqb_eq.
  rewrite !elem_of_cons, elem_of_nil. intuition discriminate.
Qed.

Lemma unit_head u :
  toUpperCase u ∈ units →
  ∃ c u', u = String c u' ∧ is_space c = false ∧ is_digit_or_dot c = false.
Proof.
  intros Hu. destruct u as [|c u'].
  - cbn in Hu. unfold units in Hu.
    repeat (apply elem_of_cons in Hu as [?|Hu]; [done|]). by apply not_elem_of_nil in Hu.
  - exists c, u'. split; [done|]. apply unit_letter. cbn in Hu. unfold units in Hu.
    repeat (apply elem_of_cons in Hu as [Hu|Hu];
            [injection Hu as -> _; by apply (bool_decide_unpack _); vm_compute|]).
    by apply not_elem_of_nil in Hu.
Qed.

(** [size_match] finds the groups of a text exactly when the text matches
    the pattern. *)
Lemma size_match_Matches s number unit :
  size_match s = Some (number, unit) ↔ Matches s number unit.
Proof.
  unfold size_match. split.
  - destruct (span_spec is_digit_or_dot s) as (Hs & Hnum & _).
    destruct (span_spec is_space (span is_digit_or_dot s).2) as (Hrest & Hsp & _).
    destruct (String.eqb_spec (span is_digit_or_dot s).1 "") as [|Hne]; [done|].
    destruct (existsb _ units) eqn:Hu; [|done]. intros Heq. simplify_eq.
    exists (span is_space (span is_digit_or_dot s).2).1.
    split; [by rewrite <- Hrest|]. split; [done|]. split; [done|]. split; [done|].
    apply elem_of_units. by rewrite Hu.
  - intros (space & -> & Hne & Hnum & Hsp & Hu).
    destruct (unit_head unit Hu) as (c & u' & -> & Hc1 & Hc2).
    rewrite (span_app is_digit_or_dot number (space +:+ String c u')); [|done|].
    + cbn [fst snd]. rewrite (span_app is_space space (String c u')) by done.
      cbn [fst snd]. destruct (String.eqb_spec number "") as [|_]; [done|].
      apply elem_of_units in Hu. by rewrite Hu.
    + destruct space as [|c0 space]; cbn; [done|].
      apply all_chars_cons in Hsp as [Hc0 _]. by apply space_not_digit_or_dot.
Qed.

Lemma size_match_None s :
  (¬ ∃ number unit, Matches s number unit) → size_match s = None.
Proof.
  intros Hno. destruct (size_match s) as [[number unit]|] eqn:Hm; [|done].
  destruct Hno. exists number, unit. by apply size_match_Matches.
Qed.
End Pattern.

(** ** Sizes and the estimate *)

Section Numbers.
Import JS LocalBuild Notions.

Lemma parseFloat_reduced s q : parseFloat s = Fin q → Qred q = q.
Proof.
  unfold parseFloat, decimal.
  cbv zeta. destruct (span is_digit s).2 as [|c rest];
    repeat match goal with |- context [if ?b then _ else _] => destruct b end;
    intros H; simplify_eq; apply Qred_complete, Qred_correct.
Qed.

Lemma times_1 s : times (parseFloat s) 1 = parseFloat s.
Proof.
  destruct (parseFloat s) as [|q] eqn:Hs; [done|]. cbn. f_equal.
  rewrite <- (parseFloat_reduced s q Hs) at 2. apply Qred_complete. ring.
Qed.

Lemma mul_times v (m : Z) : mul v (int m) = times v m.
Proof. by destruct v. Qed.

Lemma times_times v (m n : Z) : times (times v m) n = times v (m * n).
Proof.
  destruct v as [|q]; [done|]. cbn. f_equal. apply Qred_complete.
  rewrite Qred_correct. change (m * n # 1) with (inject_Z (m * n)).
  rewrite inject_Z_mult. unfold inject_Z. ring.
Qed.

Lemma parseSizeToBytes_match s number unit t :
  Matches s number unit →
  parseSizeToBytes s t
  = (Normal (times (parseFloat number) (multiplier (toUpperCase unit))), t).
Proof.
  intros Hm. pose proof Hm as (_ & _ & _ & _ & _ & Hu).
  apply size_match_Matches in Hm. unfold parseSizeToBytes. rewrite Hm.
  unfold units in Hu.
  repeat (apply elem_of_cons in Hu as [->|Hu];
          [cbn [String.eqb Ascii.eqb Bool.eqb orb multiplier];
           rewrite ?mul_times, ?times_times, ?times_1; reflexivity|]).
  by apply not_elem_of_nil in Hu.
Qed.

Lemma parseSizeToBytes_no_match s t :
  (¬ ∃ number unit, Matches s number unit) →
  parseSizeToBytes s t = (Normal (int 0), t ++ [size_warning s]).
Proof.
  intros Hno. unfold parseSizeToBytes. by rewrite size_match_None.
Qed.

Lemma toFixed_Qeq f (x y : Q) : (x == y)%Q → toFixed f (Fin x) = toFixed f (Fin y).
Proof.
  intros Hxy. unfold toFixed.
  assert (Qle_bool 0 x = Qle_bool 0 y) as -> by (by apply Qleb_comp).
  assert (Qfloor (Qabs x * (10 ^ Z.of_nat f # 1) + (1 # 2))
          = Qfloor (Qabs y * (10 ^ Z.of_nat f # 1) + (1 # 2))) as ->; [|done].
  apply Qfloor_comp. by rewrite Hxy.
Qed.

Lemma bufferBytes_value : bufferBytes = int 314572800.
Proof. by vm_compute. Qed.

Lemma MB_value : mul (int 1024) (int 1024) = int 1048576.
Proof. by vm_compute. Qed.

Lemma estimate_MB (a b : Q) :
  toFixed 2 (div (add (add (Fin a) (Fin b)) bufferBytes) (mul (int 1024) (int 1024)))
  = estimated_MB a b.
Proof.
  rewrite bufferBytes_value, MB_value. unfold estimated_MB, int, add, div.
  change (Qeq_bool (1048576 # 1) 0) with false. cbv iota.
  apply toFixed_Qeq. rewrite !Qred_correct.
  apply Qmult_comp; [|reflexivity]. apply Qplus_comp; reflexivity.
Qed.

Lemma gt_0 (a : Q) : (0 <= a)%Q → gt (Fin a) (int 0) = false ↔ (a == 0)%Q.
Proof.
  intros Ha. unfold gt, int. rewrite negb_false_iff, Qle_bool_iff. split.
  - intros Hle. by apply Qle_antisym.
  - intros ->. apply Qle_refl.
Qed.

(** *** Binary64 on whole numbers

    A whole number below [2^53], and such a number divided by a power of
    two, is a number of binary64: rounding leaves it as it is. *)






End Numbers.

(** ** Properties of the vulnerability scan *)

Import JS DockerScan LocalBuild Notions.

(** C6, as the script has it.  Whatever the report, the number of unique
    identifiers is at most the total number of findings; and the counts by
    severity add up to the total, for every report whose severities are the
    five known ones or any other word that [Object.prototype] does not
    define. *)
Theorem scan_counts_invariants (e : env) (jsonData : Report) :
  json e = Parsed jsonData →
  uniqueCves (vars (run e).2) ≤ totalVulns (vars (run e).2)
  ∧ (Forall (λ v, inherited (Severity v) = false) (records jsonData) →
     sum_counts (vulnCounts (vars (run e).2)) = Some (totalVulns (vars (run e).2))).
Proof.
  intros He. rewrite run_vars. unfold after_scan. rewrite He. cbn. split.
  - rewrite size_ids_le.
    etrans; [apply length_remove_dups_le|]. by rewrite length_fmap.
  - apply sum_counts_of.
Qed.

Lemma scan_counts_invariants_witness :
  json (sample_env true (Parsed three_records)) = Parsed three_records
  ∧ uniqueCves (vars (run (sample_env true (Parsed three_records))).2)
    ≤ totalVulns (vars (run (sample_env true (Parsed three_records))).2)
  ∧ sum_counts (vulnCounts (vars (run (sample_env true (Parsed three_records))).2))
    = Some (totalVulns (vars (run (sample_env true (Parsed three_records))).2)).
Proof.
  split; [reflexivity|].
  destruct (scan_counts_invariants (sample_env true (Parsed three_records))
              three_records eq_refl) as [Hle Hsum].
  split; [exact Hle|]. apply Hsum. repeat constructor.
Defined.

(** C6 does not hold as stated: a record whose severity reads "__proto__"
    is counted in the total and in no count of a severity, so the counts
    add up to 0 under a total of 1. *)
Lemma proto_severity_is_not_counted :
  totalVulns (vars (parse_counts (sample_env true (Parsed one_proto)) initial_world).2)
  = 1
  ∧ vulnCounts (vars (parse_counts (sample_env true (Parsed one_proto)) initial_world).2)
    = []
  ∧ sum_counts
      (vulnCounts (vars (parse_counts (sample_env true (Parsed one_proto)) initial_world).2))
    = Some 0.
Proof. by vm_compute. Qed.



(** C8.  Counting a report without records (lines 107-131, from the
    variables as declared) leaves the total and the number of unique
    identifiers at 0 and the severity counts empty; no finding is listed;
    and the text of the summary carries "No vulnerabilities found" where
    the breakdown goes, under totals of 0. *)
Theorem empty_report_summary (e : env) (jsonData : Report) :
  json e = Parsed jsonData →
  records jsonData = [] →
  ∃ w, parse_counts e initial_world = (Normal tt, w)
    ∧ totalVulns (vars w) = 0
    ∧ uniqueCves (vars w) = 0
    ∧ vulnCounts (vars w) = []
    ∧ slice 0 5 (criticalHighVulns jsonData) = []
    ∧ summaryContent e (vars w)
      = join nl
          [ "Docker Image Security Scan Summary";
            "==================================";
            "Date: " +:+ now e;
            "Image: " +:+ fullImageName e;
            "";
            "Image Information:";
            "------------------";
            "Compressed Size:   " +:+ or_else (compressedSize e) "N/A" +:+ " MB";
            "Uncompressed Size: " +:+ or_else (uncompressedSize e) "N/A" +:+ " MB";
            "";
            "Vulnerability Summary:";
            "----------------------";
            "Total Vulnerabilities: 0";
            "Unique CVEs: 0";
            "";
            "Breakdown by Severity:";
            "No vulnerabilities found";
            "";
            "Report Files:";
            "-------------";
            "Text Report: " +:+ trivyReportFile e;
            "JSON Report: " +:+ trivyJsonFile e;
            "This Summary: " +:+ summaryFile e;
            "" ].
Proof.
  intros He Hnone. eexists. split; [apply parse_counts_run|].
  rewrite criticalHighVulns_filter, He, Hnone. by cbn.
Qed.

Lemma empty_report_summary_witness :
  ∃ w, parse_counts (sample_env true (Parsed no_records)) initial_world = (Normal tt, w)
    ∧ totalVulns (vars w) = 0
    ∧ uniqueCves (vars w) = 0
    ∧ vulnCounts (vars w) = []
    ∧ slice 0 5 (criticalHighVulns no_records) = []
    ∧ summaryContent (sample_env true (Parsed no_records)) (vars w)
      = join nl
          [ "Docker Image Security Scan Summary";
            "==================================";
            "Date: Tue Jun 10 2025 10:00:00 GMT+0000";
            "Image: n8n-local:dev";
            "";
            "Image Information:";
            "------------------";
            "Compressed Size:   412.50 MB";
            "Uncompressed Size: 1290.10 MB";
            "";
            "Vulnerability Summary:";
            "----------------------";
            "Total Vulnerabilities: 0";
            "Unique CVEs: 0";
            "";
            "Breakdown by Severity:";
            "No vulnerabilities found";
            "";
            "Report Files:";
            "-------------";
            "Text Report: trivy_report_n8n-local_dev_2025-06-10T10-00-00.txt";
            "JSON Report: trivy_report_n8n-local_dev_2025-06-10T10-00-00.json";
            "This Summary: scan_summary_n8n-local_dev_2025-06-10T10-00-00.txt";
            "" ].
Proof.
  exact (empty_report_summary (sample_env true (Parsed no_records)) no_records
           eq_refl eq_refl).
Defined.

(** C2, as the script has it.  A record whose severity is none of the five
    known ones (and no property name of [Object.prototype]) is counted under
    its own severity word: that count is the number of records carrying the
    word, the count of UNKNOWN is the number of records that say UNKNOWN and
    nothing else, the record is part of the total, and the counting (lines
    107-131, from the variables as declared) completes without raising. *)
Theorem unrecognized_severity_own_bucket (e : env) (jsonData : Report) (v : Vulnerability) :
  json e = Parsed jsonData →
  v ∈ records jsonData →
  Severity v ∉ order →
  inherited (Severity v) = false →
  ∃ w, parse_counts e initial_world = (Normal tt, w)
    ∧ totalVulns (vars w) = length (records jsonData)
    ∧ 0 < occurrences (Severity v) (records jsonData)
    ∧ Get (vulnCounts (vars w)) (Severity v)
      = Prim (Num (occurrences (Severity v) (records jsonData)))
    ∧ Get (vulnCounts (vars w)) "UNKNOWN"
      = count_value (occurrences "UNKNOWN" (records jsonData)).
Proof.
  intros He Hv Hnot Hown.
  assert (0 < occurrences (Severity v) (records jsonData)) as Hpos.
  { unfold occurrences.
    assert (v ∈ filter (λ v', Severity v' = Severity v) (records jsonData)) as Hin
      by by apply list_elem_of_filter.
    destruct (filter _ _); [by apply not_elem_of_nil in Hin | cbn; lia]. }
  eexists. split; [apply parse_counts_run|]. rewrite He. cbn.
  rewrite !Get_counts_of by done.
  repeat split; try done; try lia.
  by destruct (occurrences (Severity v) (records jsonData)); [lia|].
Qed.

Lemma unrecognized_severity_own_bucket_witness :
  ∃ w, parse_counts (sample_env true (Parsed one_negligible)) initial_world
       = (Normal tt, w)
    ∧ totalVulns (vars w) = 1
    ∧ 0 < 1
    ∧ Get (vulnCounts (vars w)) "NEGLIGIBLE" = Prim (Num 1)
    ∧ Get (vulnCounts (vars w)) "UNKNOWN" = undefined.
Proof.
  refine (unrecognized_severity_own_bucket
            (sample_env true (Parsed one_negligible)) one_negligible
            (vuln "CVE-7" "NEGLIGIBLE" "bash") eq_refl _ _ eq_refl).
  - apply list_elem_of_here.
  - intros Hin. by repeat (apply elem_of_cons in Hin as [?|Hin]; [done|]);
      apply not_elem_of_nil in Hin.
Defined.

(** C2 does not hold as stated: counting a single NEGLIGIBLE record leaves
    the count of UNKNOWN undefined; the record is the one entry of the
    counts, under its own word. *)
Lemma negligible_not_counted_as_unknown :
  Get (vulnCounts
         (vars (parse_counts (sample_env true (Parsed one_negligible)) initial_world).2))
      "UNKNOWN"
  = undefined
  ∧ vulnCounts
      (vars (parse_counts (sample_env true (Parsed one_negligible)) initial_world).2)
    = [("NEGLIGIBLE", Num 1)].
Proof. by vm_compute. Qed.

(** C10 fails on a scan that leaves no report.  The script raises at line
    87, before the scanner is run, and writes no file.  And the lines after
    it do not tell a failed scan from a clean one: reached with
    [scanSuccess] true or false, the counting of an absent or unreadable
    report raises nothing and leaves the variables as declared, and the
    text of the summary is then the one of a scan that found nothing,
    totals of 0 over "No vulnerabilities found". *)
Theorem failed_scan_is_not_surfaced (e : env) :
  json e = Absent ∨ json e = Unreadable →
  (∃ w, script e initial_world = (Throw "TypeError", w) ∧ files w = [])
  ∧ ∀ success : bool,
      ∃ w, parse_counts e (scanned success) = (Normal tt, w)
        ∧ vars w = vars (scanned success)
        ∧ files w = []
        ∧ summaryContent e (vars w)
          = join nl
              [ "Docker Image Security Scan Summary";
                "==================================";
                "Date: " +:+ now e;
                "Image: " +:+ fullImageName e;
                "";
                "Image Information:";
                "------------------";
                "Compressed Size:   " +:+ or_else (compressedSize e) "N/A" +:+ " MB";
                "Uncompressed Size: " +:+ or_else (uncompressedSize e) "N/A" +:+ " MB";
                "";
                "Vulnerability Summary:";
                "----------------------";
                "Total Vulnerabilities: 0";
                "Unique CVEs: 0";
                "";
                "Breakdown by Severity:";
                "No vulnerabilities found";
                "";
                "Report Files:";
                "-------------";
                "Text Report: " +:+ trivyReportFile e;
                "JSON Report: " +:+ trivyJsonFile e;
                "This Summary: " +:+ summaryFile e;
                "" ].
Proof.
  intros He. split.
  - eexists. split; [apply script_run|]. reflexivity.
  - intros success. eexists. split; [apply parse_counts_run|].
    by destruct He as [-> | ->].
Qed.

Lemma failed_scan_is_not_surfaced_witness :
  (∃ w, script (sample_env false Absent) initial_world = (Throw "TypeError", w)
        ∧ files w = [])
  ∧ ∃ w, parse_counts (sample_env false Absent) (scanned false) = (Normal tt, w)
      ∧ vars w = vars (scanned false)
      ∧ files w = []
      ∧ summaryContent (sample_env false Absent) (vars w)
        = join nl
            [ "Docker Image Security Scan Summary";
              "==================================";
              "Date: Tue Jun 10 2025 10:00:00 GMT+0000";
              "Image: n8n-local:dev";
              "";
              "Image Information:";
              "------------------";
              "Compressed Size:   412.50 MB";
              "Uncompressed Size: 1290.10 MB";
              "";
              "Vulnerability Summary:";
              "----------------------";
              "Total Vulnerabilities: 0";
              "Unique CVEs: 0";
              "";
              "Breakdown by Severity:";
              "No vulnerabilities found";
              "";
              "Report Files:";
              "-------------";
              "Text Report: trivy_report_n8n-local_dev_2025-06-10T10-00-00.txt";
              "JSON Report: trivy_report_n8n-local_dev_2025-06-10T10-00-00.json";
              "This Summary: scan_summary_n8n-local_dev_2025-06-10T10-00-00.txt";
              "" ].
Proof.
  destruct (failed_scan_is_not_surfaced (sample_env false Absent) (or_introl eq_refl))
    as [Hscript Hsummary].
  split; [exact Hscript|]. exact (Hsummary false).
Defined.

(** C1, as the script has it.  The findings shown are the first five of the
    critical and high records in the order of the report; they are not
    sorted by severity.  For two high records of CVE-1 followed by a
    critical record of CVE-2 the list is CVE-1, CVE-1, CVE-2. *)
Theorem top_findings_in_report_order :
  (∀ jsonData : Report,
     slice 0 5 (criticalHighVulns jsonData)
     = take 5 (to_finding <$> filter is_critical_or_high (records jsonData)))
  ∧ slice 0 5 (criticalHighVulns three_records)
    = [ to_finding (vuln "CVE-1" "HIGH" "openssl");
        to_finding (vuln "CVE-1" "HIGH" "libssl3");
        to_finding (vuln "CVE-2" "CRITICAL" "zlib") ].
Proof.
  split; [|reflexivity].
  intros jsonData. by rewrite criticalHighVulns_filter.
Qed.

(** C1 does not hold as stated: for that input the list the script shows
    starts with the high findings, while the sorted reading puts the
    critical one first. *)
Lemma top_findings_not_sorted :
  slice 0 5 (criticalHighVulns three_records)
  ≠ [ to_finding (vuln "CVE-2" "CRITICAL" "zlib");
      to_finding (vuln "CVE-1" "HIGH" "openssl");
      to_finding (vuln "CVE-1" "HIGH" "libssl3") ]
  ∧ topFindings_sorted three_records
    = [ to_finding (vuln "CVE-2" "CRITICAL" "zlib");
        to_finding (vuln "CVE-1" "HIGH" "openssl");
        to_finding (vuln "CVE-1" "HIGH" "libssl3") ].
Proof. split; [discriminate | reflexivity]. Qed.

(** C5, as the script has it.  For a report with at least one record, all
    of known severities, the breakdown lists the severities in the fixed
    order CRITICAL, HIGH, MEDIUM, LOW, UNKNOWN, one line each with its count,
    and lists exactly those that occur: a severity with a count of zero has
    no line. *)
Theorem breakdown_lists_present_severities (e : env) (jsonData : Report) :
  json e = Parsed jsonData →
  Forall (λ v, Severity v ∈ order) (records jsonData) →
  records jsonData ≠ [] →
  breakdown (vulnCounts (vars (run e).2))
  = join nl ((λ s, s +:+ ": " +:+ Number_toString (occurrences s (records jsonData)))
             <$> filter (λ s, 0 < occurrences s (records jsonData)) order).
Proof.
  intros He Hknown Hsome. rewrite run_vars. unfold after_scan. rewrite He. cbn.
  by apply breakdown_counts_of.
Qed.

Lemma breakdown_lists_present_severities_witness :
  breakdown (vulnCounts (vars (run (sample_env true (Parsed three_records))).2))
  = "CRITICAL: 1" +:+ nl +:+ "HIGH: 2".
Proof.
  refine (breakdown_lists_present_severities
            (sample_env true (Parsed three_records)) three_records eq_refl _ _).
  - repeat constructor.
  - discriminate.
Defined.

(** C5 does not hold as stated: with one high record the total is 1 and the
    breakdown is the single line "HIGH: 1", not the five lines that include
    the zero counts. *)
Lemma zero_counts_are_not_listed :
  totalVulns (vars (run (sample_env true (Parsed one_high))).2) = 1
  ∧ breakdown (vulnCounts (vars (run (sample_env true (Parsed one_high))).2)) = "HIGH: 1"
  ∧ breakdown_all_five (records one_high)
    = "CRITICAL: 0" +:+ nl +:+ "HIGH: 1" +:+ nl +:+ "MEDIUM: 0" +:+ nl
      +:+ "LOW: 0" +:+ nl +:+ "UNKNOWN: 0"
  ∧ breakdown (vulnCounts (vars (run (sample_env true (Parsed one_high))).2))
    ≠ breakdown_all_five (records one_high).
Proof. repeat split; [by vm_compute..|]. by vm_compute. Qed.

(** ** Properties of the size parser and of the estimate *)

(** C3.  "512MB" is 512 * 1024 * 1024 bytes and "1.5GB" is 1.5 * 1024^3
    bytes; a text that does not match the pattern, such as "garbage", gets
    the warning and 0; a text that matches is the value of its number times
    the multiplier of its unit, which is 1 for B, 1024 for K and KB, 1024^2
    for M and MB, and 1024^3 for GB. *)
Theorem parseSizeToBytes_units :
  parseSizeToBytes "512MB" [] = (Normal (int (512 * 1024 * 1024)), [])
  ∧ parseSizeToBytes "1.5GB" [] = (Normal (times (Fin (15 # 10)) (1024 ^ 3)), [])
  ∧ (∀ s t, (¬ ∃ number unit, Matches s number unit) →
            parseSizeToBytes s t = (Normal (int 0), t ++ [size_warning s]))
  ∧ parseSizeToBytes "garbage" [] = (Normal (int 0), [size_warning "garbage"])
  ∧ (∀ s number unit t,
       Matches s number unit →
       parseSizeToBytes s t
       = (Normal (times (parseFloat number) (multiplier (toUpperCase unit))), t))
  ∧ multiplier "B" = 1%Z
  ∧ multiplier "K" = 1024%Z ∧ multiplier "KB" = 1024%Z
  ∧ multiplier "M" = (1024 ^ 2)%Z ∧ multiplier "MB" = (1024 ^ 2)%Z
  ∧ multiplier "GB" = (1024 ^ 3)%Z.
Proof.
  split; [by vm_compute|]. split; [by vm_compute|].
  split; [apply parseSizeToBytes_no_match|]. split; [by vm_compute|].
  split; [apply parseSizeToBytes_match|]. repeat split.
Qed.

Lemma parseSizeToBytes_units_witness :
  Matches "12.5 kb" "12.5" "kb"
  ∧ parseSizeToBytes "12.5 kb" [] = (Normal (int 12800), []).
Proof.
  assert (Matches "12.5 kb" "12.5" "kb") as Hm.
  { exists " ". split; [reflexivity|]. split; [discriminate|].
    split; [repeat constructor|]. split; [repeat constructor|].
    apply elem_of_units. reflexivity. }
  split; [exact Hm|].
  exact (proj1 (proj2 (proj2 (proj2 (proj2 parseSizeToBytes_units))))
           "12.5 kb" "12.5" "kb" [] Hm).
Defined.




(** C9 fails on the text ".B": it matches the pattern, its number has no
    digit, and the result is [NaN], without a warning. *)
Theorem parseSizeToBytes_dot_is_NaN :
  Matches ".B" "." "B"
  ∧ parseSizeToBytes ".B" [] = (Normal NaN, []).
Proof.
  split; [|reflexivity].
  exists "". split; [reflexivity|]. split; [discriminate|].
  split; [repeat constructor|]. split; [constructor|].
  apply elem_of_units. reflexivity.
Qed.

(** * Further properties of the scripts *)

(** ** docker_scan.mjs: the scan as a whole *)


(** X2.  The summary file does not depend on the exit status of the scanner
    runs: with the same JSON file left behind, a failed scan and a
    successful one write the same text. *)
Theorem summary_ignores_exit_status (e : env) (text_ok json_ok : bool) :
  files (run (with_status text_ok json_ok e)).2 = files (run e).2.
Proof. rewrite !run_files, !run_vars. by destruct e. Qed.

(** ** docker_scan.mjs: the counts *)

Section CountFacts.
Import JS DockerScan Notions.

Lemma occurrences_Permutation s vs1 vs2 :
  vs1 ≡ₚ vs2 → occurrences s vs1 = occurrences s vs2.
Proof. intros Hp. unfold occurrences. by rewrite Hp. Qed.

Lemma length_filter_critical_or_high vs :
  length (filter is_critical_or_high vs)
  = occurrences "CRITICAL" vs + occurrences "HIGH" vs.
Proof.
  induction vs as [|v vs IH]; [done|].
  rewrite !occurrences_cons, filter_cons.
  destruct (decide (is_critical_or_high v)) as [Hv|Hv];
    unfold is_critical_or_high in Hv;
    destruct (String.eqb_spec (Severity v) "CRITICAL") as [Hc|Hc];
    destruct (String.eqb_spec (Severity v) "HIGH") as [Hh|Hh];
    try (by destruct Hv); repeat case_decide; try congruence; cbn [length]; lia.
Qed.

Lemma length_remove_dups_NoDup {A} `{EqDecision A} (l : list A) :
  length (remove_dups l) = length l ↔ NoDup l.
Proof.
  induction l as [|x l IH]; cbn.
  - split; [constructor|done].
  - rewrite NoDup_cons. destruct (decide_rel elem_of x l) as [Hin|Hin].
    + split; [|by intros [? _]].
      pose proof (length_remove_dups_le l). lia.
    + cbn. rewrite <- IH. split; [intros; split; [done|lia] | intros [_ ?]; lia].
Qed.
End CountFacts.

(** X3.  The counts do not depend on the order of the records nor on how
    they are grouped: two reports whose records are the same up to order
    give the same total, the same number of unique identifiers and the same
    count for every severity, and, when the severities are known ones, the
    same breakdown in the summary. *)
Theorem counts_ignore_record_order (e1 e2 : env) (r1 r2 : Report) :
  json e1 = Parsed r1 →
  json e2 = Parsed r2 →
  records r1 ≡ₚ records r2 →
  totalVulns (vars (run e1).2) = totalVulns (vars (run e2).2)
  ∧ uniqueCves (vars (run e1).2) = uniqueCves (vars (run e2).2)
  ∧ (∀ s, inherited s = false →
          Get (vulnCounts (vars (run e1).2)) s = Get (vulnCounts (vars (run e2).2)) s)
  ∧ (Forall (λ v, Severity v ∈ order) (records r1) →
     breakdown (vulnCounts (vars (run e1).2)) = breakdown (vulnCounts (vars (run e2).2))).
Proof.
  intros H1 H2 Hp. rewrite !run_vars. unfold after_scan. rewrite H1, H2.
  cbn [totalVulns uniqueCves vulnCounts].
  split; [by apply Permutation_length|]. split.
  { f_equal. apply list_to_set_perm_L. by rewrite Hp. }
  split.
  - intros s Hs. rewrite !Get_counts_of by done. by rewrite (occurrences_Permutation s _ _ Hp).
  - intros Hknown.
    assert (Forall (λ v, Severity v ∈ order) (records r2)) as Hknown2 by by rewrite <- Hp.
    destruct (records r1) as [|v1 vs1] eqn:E1.
    { apply Permutation_nil in Hp. by rewrite Hp. }
    destruct (records r2) as [|v2 vs2] eqn:E2.
    { by apply Permutation_nil_r in Hp. }
    rewrite !breakdown_counts_of by done.
    f_equal.
    rewrite (list_filter_iff _ (λ s, 0 < occurrences s (v2 :: vs2)))
      by (intros s; by rewrite (occurrences_Permutation s _ _ Hp)).
    apply list_fmap_ext. intros ? s _. by rewrite (occurrences_Permutation s _ _ Hp).
Qed.

Lemma counts_ignore_record_order_witness :
  totalVulns (vars (run (sample_env true (Parsed three_records))).2)
  = totalVulns (vars (run (sample_env false (Parsed
      (report [[vuln "CVE-2" "CRITICAL" "zlib"; vuln "CVE-1" "HIGH" "libssl3";
                vuln "CVE-1" "HIGH" "openssl"]])))).2)
  ∧ breakdown (vulnCounts (vars (run (sample_env true (Parsed three_records))).2))
    = breakdown (vulnCounts (vars (run (sample_env false (Parsed
        (report [[vuln "CVE-2" "CRITICAL" "zlib"; vuln "CVE-1" "HIGH" "libssl3";
                  vuln "CVE-1" "HIGH" "openssl"]])))).2)).
Proof.
  destruct (counts_ignore_record_order
              (sample_env true (Parsed three_records))
              (sample_env false (Parsed
                 (report [[vuln "CVE-2" "CRITICAL" "zlib"; vuln "CVE-1" "HIGH" "libssl3";
                           vuln "CVE-1" "HIGH" "openssl"]])))
              _ _ eq_refl eq_refl) as (Ht & _ & _ & Hb).
  - cbn. etrans; [apply Permutation_swap|].
    etrans; [apply perm_skip, Permutation_swap|]. etrans; [apply Permutation_swap|].
    done.
  - split; [exact Ht|]. apply Hb. repeat constructor.
Defined.

(** X4.  The number of unique identifiers equals the total exactly when no
    identifier recurs among the records. *)
Theorem unique_is_total_iff_no_recurrence (e : env) (jsonData : Report) :
  json e = Parsed jsonData →
  uniqueCves (vars (run e).2) = totalVulns (vars (run e).2)
  ↔ NoDup (VulnerabilityID <$> records jsonData).
Proof.
  intros He. rewrite run_vars. unfold after_scan. rewrite He. cbn.
  rewrite size_ids_le, <- length_remove_dups_NoDup. by rewrite length_fmap.
Qed.

Lemma unique_is_total_iff_no_recurrence_witness :
  (uniqueCves (vars (run (sample_env true (Parsed three_records))).2)
   = totalVulns (vars (run (sample_env true (Parsed three_records))).2)
   ↔ NoDup (VulnerabilityID <$> records three_records))
  ∧ ¬ NoDup (VulnerabilityID <$> records three_records)
  ∧ uniqueCves (vars (run (sample_env true (Parsed three_records))).2)
    ≠ totalVulns (vars (run (sample_env true (Parsed three_records))).2).
Proof.
  pose proof (unique_is_total_iff_no_recurrence
                (sample_env true (Parsed three_records)) three_records eq_refl) as Hiff.
  assert (¬ NoDup (VulnerabilityID <$> records three_records)) as Hrecurs.
  { intros Hnd. apply NoDup_cons in Hnd as [Hnotin _]. apply Hnotin.
    apply list_elem_of_here. }
  split; [exact Hiff|]. split; [exact Hrecurs|].
  intros Heq. apply Hrecurs, Hiff, Heq.
Defined.

(** X5.  Every entry of the list of findings is a critical or a high one
    and has a title, "No title" standing in for a missing or empty one; the
    list has one entry for each critical or high record, and at most five
    of them are shown. *)
Theorem findings_are_critical_or_high (jsonData : Report) :
  Forall (λ f, (severity f = "CRITICAL" ∨ severity f = "HIGH") ∧ title f ≠ "")
         (criticalHighVulns jsonData)
  ∧ length (criticalHighVulns jsonData)
    = occurrences "CRITICAL" (records jsonData) + occurrences "HIGH" (records jsonData)
  ∧ length (slice 0 5 (criticalHighVulns jsonData))
    = min 5 (length (criticalHighVulns jsonData)).
Proof.
  rewrite criticalHighVulns_filter. split; [|split].
  - apply Forall_fmap, Forall_forall. intros v Hv.
    apply list_elem_of_filter in Hv as [Hv _]. cbn. split.
    + unfold is_critical_or_high in Hv. apply Is_true_true, orb_true_iff in Hv.
      by rewrite !String.eqb_eq in Hv.
    + unfold or_else. destruct (Title v) as [s|]; [|done].
      by destruct (String.eqb_spec s "").
  - by rewrite length_fmap, length_filter_critical_or_high.
  - unfold slice. by rewrite drop_0, length_take.
Qed.

(** ** docker_scan.mjs: severities that [order] does not list *)

Section LeastKeyFirst.
Import JS Notions.
Context {A : Type} (key : A → Z).

Lemma sort_insert_skip x l1 l2 :
  Forall (λ y, (key y < key x)%Z) l1 →
  sort_insert (by_key key) x (l1 ++ l2) = l1 ++ sort_insert (by_key key) x l2.
Proof.
  induction 1 as [|y l1 Hy Hl1 IH]; [done|]. cbn [app sort_insert].
  unfold by_key at 1. destruct (Z.leb_spec (key x - key y) 0); [lia|]. by rewrite IH.
Qed.

(** With a least key [m], the elements of key [m] come first, in their
    original order, and the sorted rest follows. *)
Lemma Array_sort_least_first (m : Z) l :
  (∀ x, (m ≤ key x)%Z) →
  Array_sort (by_key key) l
  = filter (λ x, key x = m) l ++ Array_sort (by_key key) (filter (λ x, key x ≠ m) l).
Proof.
  intros Hm. induction l as [|x l IH]; [done|].
  change (Array_sort (by_key key) (x :: l))
    with (sort_insert (by_key key) x (Array_sort (by_key key) l)).
  rewrite IH, !filter_cons. destruct (decide (key x = m)) as [Hx|Hx].
  - rewrite decide_False by tauto.
    destruct (filter (λ x0, key x0 = m) l) as [|y k] eqn:Hk; cbn [app sort_insert].
    + destruct (Array_sort (by_key key) (filter (λ x0, key x0 ≠ m) l)) as [|z s];
        [done|]. cbn [sort_insert]. unfold by_key at 1. specialize (Hm z).
      by destruct (Z.leb_spec (key x - key z) 0); [|lia].
    + unfold by_key at 1. specialize (Hm y).
      by destruct (Z.leb_spec (key x - key y) 0); [|lia].
  - rewrite decide_True by done. rewrite sort_insert_skip; [done|].
    apply Forall_forall. intros y Hy. apply list_elem_of_filter in Hy as [-> _].
    specialize (Hm x). lia.
Qed.
End LeastKeyFirst.

Section UnknownSeverities.
Import JS DockerScan Notions.

Lemma indexOf_from_spec l x i :
  (0 ≤ i)%Z →
  ((x ∉ l) ∧ indexOf_from l x i = (-1)%Z) ∨ ((x ∈ l) ∧ (i ≤ indexOf_from l x i)%Z).
Proof.
  revert i. induction l as [|y l IH]; intros i Hi; cbn.
  - left. split; [apply not_elem_of_nil|done].
  - destruct (String.eqb_spec y x) as [->|Hne].
    + right. split; [left|lia].
    + destruct (IH (i + 1)%Z) as [[Hnot ->]|[Hin Hle]]; [lia| |].
      * left. split; [|done]. by apply not_elem_of_cons.
      * right. split; [by right|lia].
Qed.

Lemma severity_rank_unknown entry : severity_rank entry = (-1)%Z ↔ entry.1 ∉ order.
Proof.
  unfold severity_rank, indexOf.
  destruct (indexOf_from_spec order entry.1 0) as [[Hnot ->]|[Hin Hle]]; [lia|done|].
  split; [lia|done].
Qed.

Lemma severity_rank_least entry : (-1 ≤ severity_rank entry)%Z.
Proof.
  unfold severity_rank, indexOf.
  destruct (indexOf_from_spec order entry.1 0) as [[Hnot ->]|[Hin Hle]]; lia.
Qed.
End UnknownSeverities.

(** X6.  In the breakdown of the summary the severities that [order] does
    not list come first, in the order in which [Object.entries] gives them,
    and the known ones follow, sorted by their place in [order]. *)
Theorem unknown_severities_listed_first (vulnCounts : object) :
  Array_sort by_severity (Object_entries vulnCounts)
  = filter (λ entry, entry.1 ∉ order) (Object_entries vulnCounts)
    ++ Array_sort by_severity (filter (λ entry, entry.1 ∈ order) (Object_entries vulnCounts))
  ∧ StronglySorted (key_le severity_rank)
      (Array_sort by_severity (filter (λ entry, entry.1 ∈ order) (Object_entries vulnCounts))).
Proof.
  split; [|apply (Array_sort_sorted severity_rank)].
  change by_severity with (by_key severity_rank).
  rewrite (Array_sort_least_first severity_rank (-1)) by apply severity_rank_least.
  f_equal; [|f_equal]; apply list_filter_iff; intros entry.
  - apply severity_rank_unknown.
  - rewrite severity_rank_unknown. split; [apply dec_stable|tauto].
Qed.

(** ** local_build.mjs: the patches kept for deployment *)

Section Patches.
Import JS LocalBuild Notions.

Lemma shouldKeep_plain k :
  shouldKeep k = true → array_index k = None ∧ String.eqb k "__proto__" = false.
Proof.
  unfold shouldKeep, PATCHES_TO_KEEP. cbn [existsb]. rewrite !orb_true_iff.
  destruct k as [|c k]; [cbn; intuition discriminate|].
  cbn [String.prefix].
  intros [H|[H|[H|H]]]; [..|discriminate];
    match type of H with
    | (if ascii_dec ?a c then _ else _) = true =>
        destruct (ascii_dec a c) as [<-|]; [done|discriminate]
    end.
Qed.

Lemma DefineOwn_fresh (o : object) k p :
  k ∉ o.*1 → DefineOwn o k p = o ++ [(k, p)].
Proof.
  induction o as [|[k0 p0] o IH]; cbn; [done|].
  rewrite not_elem_of_cons. intros [Hne Hk].
  destruct (String.eqb_spec k0 k) as [->|_]; [done|]. by rewrite IH.
Qed.

Lemma foldl_keep_patch (l : object) : ∀ acc : object,
  NoDup (acc.*1 ++ l.*1) →
  foldl keep_patch acc l = acc ++ filter (λ entry, shouldKeep entry.1) l.
Proof.
  induction l as [|[k p] l IH]; intros acc Hnd; cbn [foldl].
  - by rewrite app_nil_r.
  - rewrite filter_cons. unfold keep_patch at 2. cbn [fst snd fmap list_fmap] in *.
    apply NoDup_app in Hnd as (Hacc & Hdisj & Hl). apply NoDup_cons in Hl as [Hk Hl].
    destruct (shouldKeep k) eqn:Hkeep.
    + destruct (shouldKeep_plain k Hkeep) as [_ Hproto].
      rewrite decide_True by done. unfold Put. rewrite Hproto.
      rewrite DefineOwn_fresh by (intros Hin; apply (Hdisj k Hin); left).
      rewrite IH; [rewrite <- app_assoc; reflexivity|].
      rewrite fmap_app. cbn. rewrite <- app_assoc. cbn.
      apply NoDup_app. split; [exact Hacc|]. split; [exact Hdisj|by apply NoDup_cons].
    + rewrite decide_False by (cbn; tauto). apply IH.
      apply NoDup_app. split; [exact Hacc|]. split; [|exact Hl].
      intros x Hx Hx'. apply (Hdisj x Hx). by right.
Qed.

Lemma foldl_keep_patch_none (l : object) (acc : object) :
  Forall (λ entry, shouldKeep entry.1 = false) l → foldl keep_patch acc l = acc.
Proof.
  induction 1 as [|entry l He Hl IH]; cbn [foldl]; [done|].
  unfold keep_patch at 2. by rewrite He.
Qed.

Lemma indexed_entries_indices (o : object) :
  Forall (λ ne, array_index ne.2.1 = Some ne.1) (indexed_entries o).
Proof.
  unfold indexed_entries. induction o as [|entry o IH]; cbn; [constructor|].
  destruct (array_index entry.1) as [n|] eqn:Hn; [|done]. by constructor.
Qed.

Lemma assoc_filter {V} (keep : string → bool) (l : list (string * V)) k :
  assoc (filter (λ entry, keep entry.1) l) k = if keep k then assoc l k else None.
Proof.
  induction l as [|[k0 v] l IH]; cbn [assoc]; [by destruct (keep k)|].
  rewrite filter_cons. cbn [fst].
  destruct (keep k0) eqn:H0.
  - rewrite decide_True by done. cbn [assoc].
    destruct (String.eqb_spec k0 k) as [->|Hne]; [by rewrite H0|done].
  - rewrite decide_False by (cbn; tauto). rewrite IH.
    destruct (String.eqb_spec k0 k) as [->|Hne]; [by rewrite H0|done].
Qed.

Lemma filter_patches_filter (patchedDependencies : object) :
  NoDup patchedDependencies.*1 →
  filter_patches patchedDependencies
  = filter (λ entry, shouldKeep entry.1) patchedDependencies.
Proof.
  intros Hnd. unfold filter_patches, Object_entries.
  set (indexed := (Array_sort _ (indexed_entries patchedDependencies)).*2).
  rewrite foldl_app, (foldl_keep_patch_none indexed []).
  - rewrite foldl_keep_patch.
    + cbn [app]. rewrite list_filter_filter. apply list_filter_iff.
      intros [k p]. cbn. split; [tauto|]. intros Hk. split; [done|].
      apply Is_true_true in Hk. by apply shouldKeep_plain.
    + change (NoDup (filter (λ entry : string * prim, array_index entry.1 = None)
                             patchedDependencies).*1).
      eapply sublist_NoDup; [exact Hnd|]. apply fmap_sublist, sublist_filter.
  - unfold indexed. apply Forall_fmap.
    rewrite (Array_sort_Permutation _ (indexed_entries patchedDependencies)).
    eapply Forall_impl; [apply indexed_entries_indices|].
    intros [n [k p]] Hn. cbn in *. destruct (shouldKeep k) eqn:Hkeep; [|done].
    apply shouldKeep_plain in Hkeep as [Hk _]. congruence.
Qed.
End Patches.

(** X7.  Of the patches of package.json the loop keeps exactly the entries
    whose key starts with "pdfjs-dist", "pkce-challenge" or "bull", with
    their values and in their order; every other entry is dropped. *)
Theorem kept_patches_are_the_matching_entries (patchedDependencies : object) :
  NoDup patchedDependencies.*1 →
  filter_patches patchedDependencies
  = filter (λ entry, shouldKeep entry.1) patchedDependencies.
Proof. apply filter_patches_filter. Qed.

Lemma kept_patches_are_the_matching_entries_witness :
  filter_patches [ ("bull@4.12.1", Str "patches/bull@4.12.1.patch");
                   ("element-plus@2.4.3", Str "patches/element-plus@2.4.3.patch");
                   ("@types/bull", Str "patches/types.patch");
                   ("bullmq@5.1.0", Str "patches/bullmq.patch");
                   ("pdfjs-dist@5.3.31", Str "patches/pdfjs-dist@5.3.31.patch") ]
  = [ ("bull@4.12.1", Str "patches/bull@4.12.1.patch");
      ("bullmq@5.1.0", Str "patches/bullmq.patch");
      ("pdfjs-dist@5.3.31", Str "patches/pdfjs-dist@5.3.31.patch") ].
Proof.
  refine (kept_patches_are_the_matching_entries _ _).
  by apply (bool_decide_unpack _); vm_compute.
Defined.

(** X8.  Reading the kept patches: a key that starts with one of the three
    prefixes reads as in package.json, any other key reads as in an empty
    object; and cleaning the patches a second time changes nothing. *)
Theorem kept_patches_read_back (patchedDependencies : object) :
  NoDup patchedDependencies.*1 →
  (∀ key, Get (filter_patches patchedDependencies) key
          = if shouldKeep key then Get patchedDependencies key else Get [] key)
  ∧ filter_patches (filter_patches patchedDependencies) = filter_patches patchedDependencies.
Proof.
  intros Hnd. rewrite (filter_patches_filter _ Hnd).
  assert (NoDup (filter (λ entry : string * prim, shouldKeep entry.1)
                   patchedDependencies).*1) as Hkept.
  { eapply sublist_NoDup; [exact Hnd|]. apply fmap_sublist, sublist_filter. }
  rewrite (filter_patches_filter _ Hkept). split.
  - intros key. unfold Get. rewrite (assoc_filter shouldKeep).
    by destruct (shouldKeep key).
  - rewrite list_filter_filter. apply list_filter_iff. tauto.
Qed.

Lemma kept_patches_read_back_witness :
  Get (filter_patches [("bull@4.12.1", Str "a.patch"); ("vue-tsc@2.2.8", Str "b.patch")])
      "bull@4.12.1" = Prim (Str "a.patch")
  ∧ Get (filter_patches [("bull@4.12.1", Str "a.patch"); ("vue-tsc@2.2.8", Str "b.patch")])
        "vue-tsc@2.2.8" = undefined.
Proof.
  assert (NoDup [("bull@4.12.1", Str "a.patch"); ("vue-tsc@2.2.8", Str "b.patch")].*1)
    as Hnd by (by apply (bool_decide_unpack _); vm_compute).
  split.
  - exact (proj1 (kept_patches_read_back _ Hnd) "bull@4.12.1").
  - exact (proj1 (kept_patches_read_back _ Hnd) "vue-tsc@2.2.8").
Defined.

(** ** local_build.mjs: timers and durations *)

Section Timers.
Import JS LocalBuild Notions.

Lemma start_all_lookup others : ∀ timers name,
  name ∉ others.*1 → start_all others timers !! name = timers !! name.
Proof.
  unfold start_all. induction others as [|[n t] others IH]; intros timers name Hn; [done|].
  cbn [foldl fst snd]. cbn in Hn. apply not_elem_of_cons in Hn as [Hne Hn].
  rewrite IH by done. unfold startTimer. by rewrite lookup_insert_ne.
Qed.
End Timers.

(** X9.  A timer that was started when the clock read [t0] (not 0) reads
    the whole seconds elapsed since then, rounded down, whatever other
    timers were started in between and whether or not it had been started
    before; a name that was never started reads 0. *)
Theorem elapsed_time_since_start (name : string) (t0 now : Z)
    (others : list (string * Z)) (timers : gmap string Z) :
  name ∉ others.*1 →
  (t0 ≠ 0%Z →
   getElapsedTime name now (start_all others (startTimer name t0 timers))
   = ((now - t0) / 1000)%Z
   ∧ (1000 * ((now - t0) / 1000) ≤ now - t0 < 1000 * ((now - t0) / 1000) + 1000)%Z)
  ∧ (timers !! name = None →
     getElapsedTime name now (start_all others timers) = 0%Z).
Proof.
  intros Hn. split.
  - intros Ht0. split; [|Z.div_mod_to_equations; lia]. unfold getElapsedTime.
    rewrite start_all_lookup by done. unfold startTimer. rewrite lookup_insert_eq.
    by destruct (Z.eqb_spec t0 0).
  - intros Hnone. unfold getElapsedTime. by rewrite start_all_lookup, Hnone.
Qed.

Lemma elapsed_time_since_start_witness :
  getElapsedTime "package_build" 1750000065999
    (start_all [("docker_build", 1750000060000%Z)]
       (startTimer "package_build" 1750000000000 ∅)) = 65%Z
  ∧ getElapsedTime "package_deploy" 1750000065999
      (start_all [("docker_build", 1750000060000%Z)] ∅) = 0%Z.
Proof.
  assert ("package_build" ∉ [("docker_build", 1750000060000%Z)].*1) as H1.
  { cbn. intros H. apply elem_of_cons in H as [H|H]; [discriminate|].
    by apply not_elem_of_nil in H. }
  assert ("package_deploy" ∉ [("docker_build", 1750000060000%Z)].*1) as H2.
  { cbn. intros H. apply elem_of_cons in H as [H|H]; [discriminate|].
    by apply not_elem_of_nil in H. }
  split.
  - refine (proj1 (proj1 (elapsed_time_since_start "package_build" 1750000000000
                            1750000065999 _ ∅ H1) _)). discriminate.
  - exact (proj2 (elapsed_time_since_start "package_deploy" 0 1750000065999 _ ∅ H2)
             (lookup_empty _)).
Defined.

Section Durations.
Import JS LocalBuild Notions.

Lemma uint_digits d : all_chars is_digit (NilEmpty.string_of_uint d).
Proof.
  induction d; cbn; try apply all_chars_nil.
  all: apply (proj2 (all_chars_cons _ _ _)); split; [reflexivity|assumption].
Qed.

Lemma to_int_not_nil z : Z.to_int z ≠ Decimal.Pos Decimal.Nil ∧ Z.to_int z ≠ Decimal.Neg Decimal.Nil.
Proof.
  split; intros H; pose proof (DecimalZ.of_to z) as Hz; rewrite H in Hz;
    cbn in Hz; subst z; discriminate.
Qed.

Lemma Int_toString_inj a b : Int_toString a = Int_toString b → a = b.
Proof.
  unfold Int_toString. intros H. apply (f_equal NilZero.int_of_string) in H.
  destruct (to_int_not_nil a), (to_int_not_nil b).
  rewrite !NilZero.isi in H by done. apply DecimalZ.to_int_inj. congruence.
Qed.

Lemma Int_toString_digits z : (0 ≤ z)%Z → all_chars is_digit (Int_toString z).
Proof.
  intros Hz. unfold Int_toString. destruct z as [|p|p]; [by vm_compute; repeat constructor| |lia].
  cbn. destruct (Pos.to_uint p); apply uint_digits || (cbn; repeat constructor).
Qed.

(** A run of digits followed by something else can be read back in one way. *)
Lemma digits_then a r b r' :
  all_chars is_digit a → all_chars is_digit b → stops is_digit r → stops is_digit r' →
  a +:+ r = b +:+ r' → a = b ∧ r = r'.
Proof.
  intros Ha Hb Hr Hr' Heq.
  pose proof (span_app is_digit a r Ha Hr) as H1.
  pose proof (span_app is_digit b r' Hb Hr') as H2.
  rewrite Heq in H1. rewrite H1 in H2. by simplify_eq.
Qed.

Lemma field_inj (x y : Z) (u v : ascii) (r r' : string) :
  (0 ≤ x)%Z → (0 ≤ y)%Z → is_digit u = false → is_digit v = false →
  Int_toString x +:+ String u r = Int_toString y +:+ String v r' →
  x = y ∧ u = v ∧ r = r'.
Proof.
  intros Hx Hy Hu Hv Heq.
  apply digits_then in Heq as [Hxy Hr]; try by apply Int_toString_digits.
  - apply Int_toString_inj in Hxy. by simplify_eq.
  - exact Hu.
  - exact Hv.
Qed.
End Durations.

(** X10.  Two different durations (in whole seconds, not negative) are
    never written the same way by [formatDuration]. *)
Theorem formatDuration_injective (a b : Z) :
  (0 ≤ a)%Z → (0 ≤ b)%Z → formatDuration a = formatDuration b → a = b.
Proof.
  intros Ha Hb. unfold formatDuration. cbv zeta.
  rewrite !Z.rem_mod_nonneg by lia.
  assert (0 ≤ a / 3600 ∧ 0 ≤ a `mod` 3600 / 60 ∧ 0 ≤ a `mod` 60)%Z as (? & ? & ?)
    by (repeat split; Z.div_mod_to_equations; lia).
  assert (0 ≤ b / 3600 ∧ 0 ≤ b `mod` 3600 / 60 ∧ 0 ≤ b `mod` 60)%Z as (? & ? & ?)
    by (repeat split; Z.div_mod_to_equations; lia).
  destruct (Z.ltb_spec 0 (a / 3600)), (Z.ltb_spec 0 (b / 3600));
    destruct (Z.ltb_spec 0 (a `mod` 3600 / 60)), (Z.ltb_spec 0 (b `mod` 3600 / 60));
    intros Heq;
    repeat match type of Heq with
      | Int_toString _ +:+ ?u +:+ _ = Int_toString _ +:+ ?v +:+ _ =>
          apply (field_inj _ _ _ _ _ _) in Heq as (? & ? & Heq);
          [|done..]; try discriminate; simplify_eq
      | Int_toString _ +:+ ?u = Int_toString _ +:+ ?v +:+ _ =>
          apply (field_inj _ _ _ _ _ _) in Heq as (? & ? & Heq);
          [|done..]; try discriminate; simplify_eq
      | Int_toString _ +:+ ?u +:+ _ = Int_toString _ +:+ ?v =>
          apply (field_inj _ _ _ _ _ _) in Heq as (? & ? & Heq);
          [|done..]; try discriminate; simplify_eq
      | Int_toString _ +:+ ?u = Int_toString _ +:+ ?v =>
          apply (field_inj _ _ _ _ _ _) in Heq as (? & ? & Heq);
          [|done..]; try discriminate; simplify_eq
      end;
    Z.div_mod_to_equations; lia.
Qed.

Lemma formatDuration_injective_witness :
  formatDuration 3725 = "1h 2m 5s"
  ∧ formatDuration (3600 + 125) = "1h 2m 5s"
  ∧ 3725%Z = (3600 + 125)%Z.
Proof.
  split; [reflexivity|]. split; [reflexivity|].
  apply formatDuration_injective; [discriminate..|reflexivity].
Defined.

(** ** local_build.mjs: more on the sizes *)

Section Endings.
Import JS LocalBuild Notions.

Lemma append_assoc (a b c : string) : (a +:+ b) +:+ c = a +:+ (b +:+ c).
Proof.
  induction a as [|x a IH]; [done|].
  change (String x ((a +:+ b) +:+ c) = String x (a +:+ (b +:+ c))). by rewrite IH.
Qed.

Lemma append_snoc_inj (a b : string) (c c' : ascii) :
  a +:+ String c "" = b +:+ String c' "" → a = b ∧ c = c'.
Proof.
  revert b. induction a as [|x a IH]; intros [|y b] Heq.
  - by injection Heq as ->.
  - injection Heq as -> Heq. by destruct b.
  - injection Heq as -> Heq. by destruct a.
  - injection Heq as -> Heq. apply IH in Heq as [-> ->]. done.
Qed.

Lemma unit_ending u :
  toUpperCase u ∈ units →
  ∃ u' c, u = u' +:+ String c "" ∧ upper c ∈ unit_endings.
Proof.
  intros Hu. unfold units in Hu.
  repeat (apply elem_of_cons in Hu as [Hu|Hu];
    [ destruct u as [|a [|b [|x y]]]; try discriminate Hu; cbn in Hu; simplify_eq;
      first [ exists "", a; split; [reflexivity|]
            | exists (String a ""), b; split; [reflexivity|] ];
      match goal with H : upper ?c = _ |- upper ?c ∈ _ => rewrite H end;
      by apply (bool_decide_unpack _); vm_compute |]).
  by apply not_elem_of_nil in Hu.
Qed.
End Endings.

(** X11.  A text whose last character is not B, M or K, in either case, is
    rejected whatever comes before it: so are the sizes that [du -sh]
    prints in G or T, such as "1.2G".  The result is 0, with the warning. *)
Theorem parseSizeToBytes_rejects_other_endings (s : string) (c : ascii) (t : list string) :
  upper c ∉ unit_endings →
  parseSizeToBytes (s +:+ String c "") t
  = (Normal (int 0), t ++ [size_warning (s +:+ String c "")]).
Proof.
  intros Hc. apply parseSizeToBytes_no_match.
  intros (number & unit & space & Heq & _ & _ & _ & Hu).
  apply unit_ending in Hu as (u' & c' & -> & Hc').
  rewrite <- !append_assoc in Heq. apply append_snoc_inj in Heq as [_ ->]. done.
Qed.

Lemma parseSizeToBytes_rejects_other_endings_witness :
  parseSizeToBytes "1.2G" [] = (Normal (int 0), [size_warning "1.2G"]).
Proof.
  apply (parseSizeToBytes_rejects_other_endings "1.2" "G" []).
  by apply (bool_decide_unpack _); vm_compute.
Defined.

(** X12.  When the text of [du] is rejected, the estimate counts the
    compiled application as 0 bytes: it is the size of the image plus the
    300 MiB, after the warning about the text, and it is "N/A" when the
    size of the image is 0 as well. *)
Theorem estimate_total_without_app_size (s : string) (v : Q) (t : list string) :
  (¬ ∃ number unit, Matches s number unit) →
  (0 <= v)%Q →
  (¬ (v == 0)%Q →
   estimate_total s (Fin v) t
   = (Normal (estimated_MB 0 v),
      t ++ [size_warning s; estimate_info (estimated_MB 0 v)]))
  ∧ ((v == 0)%Q →
     estimate_total s (Fin v) t
     = (Normal "N/A", t ++ [size_warning s; estimate_warning])).
Proof.
  intros Hno Hv. unfold estimate_total.
  rewrite (bind_normal _ _ _ _ _ (parseSizeToBytes_no_match s t Hno)).
  unfold estimate. change (gt (int 0) (int 0)) with false. cbn [orb]. split.
  - intros Hnz. destruct (gt (Fin v) (int 0)) eqn:Hg.
    + change (int 0) with (Fin 0). rewrite estimate_MB.
      cbv [mbind M_bind bind mret M_ret ret echo modify]. by rewrite <- app_assoc.
    + destruct Hnz. by apply gt_0.
  - intros Hz. rewrite (proj2 (gt_0 v Hv) Hz).
    cbv [mbind M_bind bind mret M_ret ret echo modify]. by rewrite <- app_assoc.
Qed.

Lemma estimate_total_without_app_size_witness :
  estimate_total "1.2G" (int 123456789) []
  = (Normal "417.74", [size_warning "1.2G"; estimate_info "417.74"]).
Proof.
  refine (proj1 (estimate_total_without_app_size "1.2G" (123456789 # 1) [] _ _) _).
  - intros (number & unit & Hm). apply size_match_Matches in Hm. discriminate Hm.
  - discriminate.
  - discriminate.
Defined.

Section Values.
Import JS LocalBuild Notions.

Lemma span_fst_empty p s : (span p s).1 = "" ↔ stops p s.
Proof.
  destruct s as [|c s]; cbn; [done|].
  destruct (p c); cbn; split; done.
Qed.

Lemma decimal_nonneg a b : (0 <= decimal a b)%Q.
Proof.
  unfold decimal. rewrite Qred_correct. unfold Qle. cbn. lia.
Qed.

Lemma parseFloat_nonneg s q : parseFloat s = Fin q → (0 <= q)%Q.
Proof.
  unfold parseFloat. cbv zeta. destruct (span is_digit s).2 as [|c rest];
    repeat match goal with |- context [if ?b then _ else _] => destruct b end;
    intros H; simplify_eq; apply decimal_nonneg.
Qed.

Lemma multiplier_nonneg unit : (0 ≤ multiplier unit)%Z.
Proof.
  unfold multiplier.
  repeat match goal with |- context [if ?b then _ else _] => destruct b end; lia.
Qed.

Lemma times_nonneg v m :
  (v = NaN ∨ ∃ q, v = Fin q ∧ (0 <= q)%Q) → (0 ≤ m)%Z →
  times v m = NaN ∨ ∃ q, times v m = Fin q ∧ (0 <= q)%Q.
Proof.
  intros [->|(q & -> & Hq)] Hm; [by left|]. right. eexists. split; [reflexivity|].
  rewrite Qred_correct. apply Qmult_le_0_compat; [done|]. unfold Qle. cbn. lia.
Qed.

Lemma times_NaN v m : times v m = NaN ↔ v = NaN.
Proof. by destruct v. Qed.

(** The numbers that [parseFloat] cannot read, among the texts of digits
    and dots: those that start with a dot that no digit follows. *)
Lemma parseFloat_NaN number :
  number ≠ "" →
  all_chars is_digit_or_dot number →
  parseFloat number = NaN ↔ ∃ rest, number = "." +:+ rest ∧ stops is_digit rest.
Proof.
  intros Hne Hclass. destruct number as [|c number]; [done|]. clear Hne.
  apply all_chars_cons in Hclass as [Hc _]. unfold is_digit_or_dot in Hc.
  unfold parseFloat. cbv zeta. cbn [span]. destruct (is_digit c) eqn:Hd.
  - cbn [fst snd]. split.
    + destruct (span is_digit number).2 as [|c' rest]; [done|]. by destruct (Ascii.eqb c' ".").
    + intros (rest & Heq & _). change ("." +:+ rest) with (String "."%char rest) in Heq.
      injection Heq as -> _. discriminate Hd.
  - cbn [fst snd orb] in *. rewrite Hc. apply Ascii.eqb_eq in Hc as ->.
    cbn [String.eqb andb]. split.
    + intros H. exists number. split; [reflexivity|]. apply span_fst_empty.
      by destruct (String.eqb_spec (span is_digit number).1 "").
    + intros (rest & Heq & Hstop). change ("." +:+ rest) with (String "."%char rest) in Heq.
      injection Heq as <-.
      apply span_fst_empty in Hstop. by rewrite Hstop.
Qed.
End Values.

(** X13.  [parseSizeToBytes] never returns a negative number: its result is
    [NaN] or a number that is not negative.  For a text that matches the
    pattern it is [NaN] exactly when the number starts with a dot that no
    digit follows. *)
Theorem parseSizeToBytes_value (s : string) (t : list string) :
  (∃ v, (parseSizeToBytes s t).1 = Normal v
        ∧ (v = NaN ∨ ∃ q, v = Fin q ∧ (0 <= q)%Q))
  ∧ (∀ number unit,
       Matches s number unit →
       (parseSizeToBytes s t).1 = Normal NaN
       ↔ ∃ rest, number = "." +:+ rest ∧ stops is_digit rest).
Proof.
  split.
  - destruct (size_match s) as [[number unit]|] eqn:Hm.
    + apply size_match_Matches in Hm. rewrite (parseSizeToBytes_match _ _ _ _ Hm).
      eexists. split; [reflexivity|]. apply times_nonneg; [|apply multiplier_nonneg].
      destruct (parseFloat number) as [|q] eqn:Hq; [by left|]. right.
      exists q. split; [done|]. by eapply parseFloat_nonneg.
    + unfold parseSizeToBytes. rewrite Hm. eexists. split; [reflexivity|].
      right. exists 0%Q. split; [done|]. apply Qle_refl.
  - intros number unit Hm. rewrite (parseSizeToBytes_match _ _ _ _ Hm). cbn [fst].
    destruct Hm as (_ & _ & Hne & Hclass & _).
    rewrite <- (parseFloat_NaN number Hne Hclass), <- times_NaN.
    split; [by intros [= ->]|by intros ->].
Qed.

Lemma parseSizeToBytes_value_witness :
  (parseSizeToBytes ".B" []).1 = Normal NaN
  ↔ ∃ rest, "." = "." +:+ rest ∧ stops is_digit rest.
Proof.
  refine (proj2 (parseSizeToBytes_value ".B" []) "." "B" _).
  exists "". split; [reflexivity|]. split; [discriminate|].
  split; [repeat constructor|]. split; [constructor|].
  apply elem_of_units. reflexivity.
Defined.

(** X14.  A size that is [NaN] goes through the estimate: with an image of
    positive size the estimate is the text "NaN", printed as such, rather
    than "N/A". *)
Theorem estimate_total_of_NaN (s : string) (v : Q) (t : list string) :
  (parseSizeToBytes s t).1 = Normal NaN →
  (0 < v)%Q →
  estimate_total s (Fin v) t = (Normal "NaN", t ++ [estimate_info "NaN"]).
Proof.
  intros Hnan Hv. unfold estimate_total.
  destruct (size_match s) as [[number unit]|] eqn:Hm.
  - apply size_match_Matches in Hm. rewrite (parseSizeToBytes_match _ _ _ _ Hm) in Hnan.
    injection Hnan as Hnan.
    rewrite (bind_normal _ _ _ _ _ (parseSizeToBytes_match _ _ _ t Hm)), Hnan.
    unfold estimate, gt, int. cbn [orb].
    assert (negb (Qle_bool v (0 # 1)) = true) as ->; [|reflexivity].
    apply negb_true_iff. destruct (Qle_bool v 0) eqn:Hle; [|done].
    apply Qle_bool_iff in Hle. by apply Qle_not_lt in Hle.
  - unfold parseSizeToBytes in Hnan. rewrite Hm in Hnan. discriminate Hnan.
Qed.

Lemma estimate_total_of_NaN_witness :
  estimate_total ".B" (int 123456789) [] = (Normal "NaN", [estimate_info "NaN"]).
Proof.
  exact (estimate_total_of_NaN ".B" (123456789 # 1) [] eq_refl eq_refl).
Defined.

Section Case.
Import JS LocalBuild Notions.

Lemma upper_class c :
  is_digit_or_dot (upper c) = is_digit_or_dot c
  ∧ is_space (upper c) = is_space c
  ∧ upper (upper c) = upper c
  ∧ (is_digit_or_dot c = true → upper c = c).
Proof. destruct c as [[] [] [] [] [] [] [] []]; by vm_compute. Qed.

Lemma span_toUpperCase p s :
  (∀ c, p (upper c) = p c) →
  span p (toUpperCase s) = (toUpperCase (span p s).1, toUpperCase (span p s).2).
Proof.
  intros Hp. induction s as [|c s IH]; [done|]. cbn [toUpperCase span].
  rewrite Hp, IH. by destruct (p c).
Qed.

Lemma toUpperCase_idem s : toUpperCase (toUpperCase s) = toUpperCase s.
Proof.
  induction s as [|c s IH]; [done|]. cbn.
  by rewrite IH, (proj1 (proj2 (proj2 (upper_class c)))).
Qed.

Lemma toUpperCase_digits_and_dots s :
  all_chars is_digit_or_dot s → toUpperCase s = s.
Proof.
  induction s as [|c s IH]; [done|]. intros [Hc Hs]%all_chars_cons. cbn.
  by rewrite IH, (proj2 (proj2 (proj2 (upper_class c))) Hc).
Qed.

Lemma size_match_toUpperCase s :
  size_match (toUpperCase s)
  = match size_match s with
    | Some (number, unit) => Some (number, toUpperCase unit)
    | None => None
    end.
Proof.
  unfold size_match.
  rewrite (span_toUpperCase is_digit_or_dot) by (intros c; apply upper_class).
  cbn [fst snd].
  rewrite (span_toUpperCase is_space) by (intros c; apply upper_class).
  cbn [fst snd].
  destruct (span_spec is_digit_or_dot s) as (_ & Hclass & _).
  rewrite (toUpperCase_digits_and_dots _ Hclass), toUpperCase_idem.
  destruct (String.eqb _ ""); [done|]. by destruct (existsb _ units).
Qed.
End Case.

(** X15.  The case of the letters does not matter: a text and the same text
    in upper case give the same number of bytes. *)
Theorem parseSizeToBytes_ignores_case (s : string) (t : list string) :
  (parseSizeToBytes (toUpperCase s) t).1 = (parseSizeToBytes s t).1.
Proof.
  unfold parseSizeToBytes. rewrite size_match_toUpperCase.
  destruct (size_match s) as [[number unit]|]; [|done].
  rewrite toUpperCase_idem.
  repeat match goal with |- context [if ?b then _ else _] => destruct b end; done.
Qed.

(** ** The names of the report files (docker_scan.mjs, lines 78-83) *)

Section Names.
Import JS DockerScan LocalBuild Notions.

Lemma all_chars_app p a b : all_chars p (a +:+ b) ↔ all_chars p a ∧ all_chars p b.
Proof.
  induction a as [|c a IH].
  - change ("" +:+ b) with b. split; [by split; [apply all_chars_nil|]|by intros [_ ?]].
  - change (String c a +:+ b) with (String c (a +:+ b)).
    rewrite !all_chars_cons, IH. tauto.
Qed.

Lemma all_chars_impl (p q : ascii → bool) s :
  (∀ c, p c = true → q c = true) → all_chars p s → all_chars q s.
Proof.
  intros Hpq Hs. unfold all_chars. eapply Forall_impl; [exact Hs|].
  intros c. apply Hpq.
Qed.

Lemma replace_all_app class by_char a b :
  replace_all class by_char (a +:+ b)
  = replace_all class by_char a +:+ replace_all class by_char b.
Proof.
  induction a as [|c a IH]; [done|].
  change (String c a +:+ b) with (String c (a +:+ b)). cbn [replace_all].
  rewrite IH. reflexivity.
Qed.

Lemma replace_all_length class by_char s :
  String.length (replace_all class by_char s) = String.length s.
Proof. induction s as [|c s IH]; [done|]. cbn. by rewrite IH. Qed.

Lemma replace_all_chars class by_char (q : ascii → bool) s :
  q by_char = true →
  (∀ c, class c = false → q c = true) →
  all_chars q (replace_all class by_char s).
Proof.
  intros Hby Hq. induction s as [|c s IH]; [apply all_chars_nil|].
  cbn [replace_all]. apply (proj2 (all_chars_cons _ _ _)). split; [|done].
  destruct (class c) eqn:Hc; [done|by apply Hq].
Qed.

Lemma replace_all_fixed class by_char s :
  replace_all class by_char s = s
  ↔ all_chars (λ c, negb (class c) || Ascii.eqb c by_char) s.
Proof.
  induction s as [|c s IH]; [by split; [intros; apply all_chars_nil|]|].
  cbn [replace_all]. rewrite all_chars_cons, <- IH. split.
  - intros [= Hc Hs]. split; [|done]. destruct (class c); [|done].
    subst c. cbn. apply Ascii.eqb_refl.
  - intros [Hc ->]. destruct (class c); [|done]. cbn in Hc.
    apply Ascii.eqb_eq in Hc. by subst c.
Qed.

Lemma substring_0_length a b :
  String.substring 0 (String.length a) (a +:+ b) = a.
Proof.
  induction a as [|c a IH]; [by destruct b|].
  change (String c a +:+ b) with (String c (a +:+ b)). cbn. by rewrite IH.
Qed.

Lemma length_app a b :
  String.length (a +:+ b) = String.length a + String.length b.
Proof.
  induction a as [|c a IH]; [done|].
  change (String c a +:+ b) with (String c (a +:+ b)). cbn. by rewrite IH.
Qed.

Lemma substring_0_all_chars p n s :
  all_chars p s → all_chars p (String.substring 0 n s).
Proof.
  revert n. induction s as [|c s IH]; intros [|n] Hs; try apply all_chars_nil.
  apply all_chars_cons in Hs as [Hc Hs]. cbn.
  apply (proj2 (all_chars_cons _ _ _)). split; [done|by apply IH].
Qed.

Lemma drop_last_app n a b : String.length b = n → drop_last n (a +:+ b) = a.
Proof.
  intros <-. unfold drop_last. rewrite length_app.
  replace (String.length a + String.length b - String.length b)
    with (String.length a) by lia.
  apply substring_0_length.
Qed.

Lemma safe_char_file_char c : is_safe_char c = true → is_file_char c = true.
Proof.
  unfold is_safe_char, is_file_char. intros [->| ->]%orb_true_iff; [done|].
  by rewrite orb_true_r.
Qed.

Lemma safeImageName_chars s : all_chars is_safe_char (safeImageName s).
Proof.
  apply replace_all_chars; [done|]. intros c Hc. apply negb_false_iff in Hc.
  unfold is_safe_char. by rewrite Hc.
Qed.

Lemma timestamp_chars iso :
  all_chars is_date_char iso → all_chars is_name_char (timestamp iso).
Proof.
  intros Hiso. unfold timestamp, drop_last. apply substring_0_all_chars.
  induction iso as [|c iso IH]; [apply all_chars_nil|].
  apply all_chars_cons in Hiso as [Hc Hiso]. cbn [replace_all].
  apply (proj2 (all_chars_cons _ _ _)). split; [|by apply IH].
  destruct (is_colon_or_dot c) eqn:Hcd; [done|].
  unfold is_date_char in Hc. by rewrite Hcd, orb_false_r in Hc.
Qed.

Lemma name_char_file_char c : is_name_char c = true → is_file_char c = true.
Proof. unfold is_file_char. by intros ->. Qed.
End Names.

(** X16.  [safeImageName] keeps the length of the image name and leaves
    only letters, digits, hyphens and underscores; the names it leaves
    unchanged are exactly those made of such characters, and applying it
    twice is applying it once. *)
Theorem safeImageName_spec (fullImageName : string) :
  String.length (safeImageName fullImageName) = String.length fullImageName
  ∧ all_chars is_safe_char (safeImageName fullImageName)
  ∧ (safeImageName fullImageName = fullImageName
     ↔ all_chars is_safe_char fullImageName)
  ∧ safeImageName (safeImageName fullImageName) = safeImageName fullImageName.
Proof.
  assert (∀ s, safeImageName s = s ↔ all_chars is_safe_char s) as Hfixed.
  { intros s. unfold safeImageName. rewrite replace_all_fixed.
    split; apply all_chars_impl; intros c; unfold is_safe_char;
      by rewrite negb_involutive. }
  split; [apply replace_all_length|]. split; [apply safeImageName_chars|].
  split; [apply Hfixed|]. apply Hfixed, safeImageName_chars.
Qed.

(** X17.  Whatever the image name, the three report files are named with
    letters, digits, hyphens, underscores and dots only, so with no path
    separator, when the text of the date has no other character than
    letters, digits, hyphens, colons and dots. *)
Theorem report_file_names_are_plain (fullImageName iso : string) :
  all_chars is_date_char iso →
  all_chars is_file_char (trivyReportFile_of fullImageName iso)
  ∧ all_chars is_file_char (trivyJsonFile_of fullImageName iso)
  ∧ all_chars is_file_char (summaryFile_of fullImageName iso).
Proof.
  intros Hiso.
  pose proof (all_chars_impl _ _ _ safe_char_file_char
                (safeImageName_chars fullImageName)) as Hname.
  pose proof (all_chars_impl _ _ _ name_char_file_char
                (timestamp_chars iso Hiso)) as Hstamp.
  unfold trivyReportFile_of, trivyJsonFile_of, summaryFile_of.
  rewrite !all_chars_app.
  repeat split; try assumption; repeat constructor.
Qed.

Lemma report_file_names_are_plain_witness :
  all_chars is_date_char "2024-05-06T07:08:09.123Z"
  ∧ all_chars is_file_char
      (trivyReportFile_of "n8nio/n8n:latest" "2024-05-06T07:08:09.123Z")
  ∧ trivyReportFile_of "n8nio/n8n:latest" "2024-05-06T07:08:09.123Z"
    = "trivy_report_n8nio_n8n_latest_2024-05-06T07-08-09.txt".
Proof.
  assert (all_chars is_date_char "2024-05-06T07:08:09.123Z") as Hiso
    by repeat constructor.
  split; [exact Hiso|]. split; [|reflexivity].
  exact (proj1 (report_file_names_are_plain "n8nio/n8n:latest" _ Hiso)).
Defined.

(** X18.  The time stamp is the text of the date without its last five
    characters (the milliseconds and the zone of an ISO date), each colon
    and dot of the rest replaced by a hyphen; no colon and no dot is left
    in it. *)
Theorem timestamp_spec (body tail : string) :
  String.length tail = 5 →
  timestamp (body +:+ tail) = replace_all is_colon_or_dot "-" body
  ∧ all_chars (λ c, negb (is_colon_or_dot c)) (timestamp (body +:+ tail)).
Proof.
  intros Htail.
  assert (timestamp (body +:+ tail) = replace_all is_colon_or_dot "-" body) as ->.
  { unfold timestamp. rewrite replace_all_app. apply drop_last_app.
    by rewrite replace_all_length. }
  split; [reflexivity|]. apply replace_all_chars; [done|].
  by intros c ->.
Qed.

Lemma timestamp_spec_witness :
  timestamp ("2024-05-06T07:08:09" +:+ ".123Z") = "2024-05-06T07-08-09".
Proof.
  exact (proj1 (timestamp_spec "2024-05-06T07:08:09" ".123Z" eq_refl)).
Defined.

(** ** The two writers of durations *)

(** X19.  The shell script and the build script write a duration the same
    way: [format_duration] of local_build_scan.sh and [formatDuration] of
    local_build.mjs agree on every whole number of seconds between [-2^53]
    and [2^53], negative ones included, although one truncates its
    quotients and the other takes their floor. *)
Theorem format_duration_agrees (seconds : Z) :
  (- 2 ^ 53 < seconds < 2 ^ 53)%Z →
  LocalBuildScan.format_duration seconds = formatDuration seconds.
Proof.
  intros Hrange.
  unfold LocalBuildScan.format_duration, formatDuration. cbv zeta.
  assert (LocalBuildScan.wrap64 seconds = seconds) as ->.
  { unfold LocalBuildScan.wrap64. rewrite Z.mod_small; lia. }
  destruct (Z.le_gt_cases 0 seconds) as [Hpos|Hneg].
  - rewrite (Z.quot_div_nonneg seconds 3600) by lia.
    rewrite (Z.quot_div_nonneg (Z.rem seconds 3600) 60)
      by (try apply Z.rem_nonneg; lia).
    reflexivity.
  - assert (Z.quot seconds 3600 ≤ 0 ∧ seconds / 3600 ≤ 0
            ∧ Z.quot (Z.rem seconds 3600) 60 ≤ 0
            ∧ Z.rem seconds 3600 / 60 ≤ 0)%Z as (H1 & H2 & H3 & H4).
    { pose proof (Z.rem_nonpos seconds 3600 ltac:(lia) ltac:(lia)).
      repeat split.
      - apply Z.quot_le_upper_bound; lia.
      - Z.div_mod_to_equations; lia.
      - apply Z.quot_le_upper_bound; lia.
      - Z.div_mod_to_equations; lia. }
    by rewrite !(proj2 (Z.ltb_ge 0 _)) by assumption.
Qed.

Lemma format_duration_agrees_witness :
  LocalBuildScan.format_duration 3725 = "1h 2m 5s"
  ∧ LocalBuildScan.format_duration (-61) = formatDuration (-61).
Proof.
  split.
  - rewrite (format_duration_agrees 3725) by lia. reflexivity.
  - apply format_duration_agrees. lia.
Defined.

(** ** The estimate in the build summary *)

Section SummaryLines.
Import JS LocalBuild Notions.

Lemma Z_toString_digits z : all_chars is_digit (Z_toString z).
Proof. apply uint_digits. Qed.

Lemma Z_toString_not_empty z : Z_toString z ≠ "".
Proof.
  unfold Z_toString. intros H.
  pose proof (NilEmpty.usu (N.to_uint (Z.to_N z))) as Hu. rewrite H in Hu.
  cbn in Hu. injection Hu as Hu.
  pose proof (DecimalN.Unsigned.of_to (Z.to_N z)) as Hz. rewrite <- Hu in Hz.
  cbn in Hz. rewrite <- Hz in Hu. discriminate Hu.
Qed.

Lemma append_empty_r s : s +:+ "" = s.
Proof.
  induction s as [|c s IH]; [done|].
  change (String c s +:+ "") with (String c (s +:+ "")). by rewrite IH.
Qed.

Lemma toFixed_not_NA f x : toFixed f x ≠ "N/A".
Proof.
  destruct x as [|q]; [discriminate|]. unfold toFixed. cbv zeta.
  set (whole := Z_toString _).
  assert (∀ r, whole +:+ r ≠ "N/A") as Hwhole.
  { intros r. pose proof (Z_toString_digits (Qfloor (Qabs q * (10 ^ Z.of_nat f # 1) + (1 # 2)) / 10 ^ Z.of_nat f)) as Hd.
    pose proof (Z_toString_not_empty (Qfloor (Qabs q * (10 ^ Z.of_nat f # 1) + (1 # 2)) / 10 ^ Z.of_nat f)) as Hne.
    fold whole in Hd, Hne. destruct whole as [|c whole]; [done|].
    apply all_chars_cons in Hd as [Hc _]. intros [= -> _]. discriminate Hc. }
  destruct (negb (Qle_bool 0 q)), (f =? 0); try discriminate.
  - change ("" +:+ whole) with whole. rewrite <- (append_empty_r whole). apply Hwhole.
  - apply Hwhole.
Qed.

Lemma echo_twice x y (t : list string) :
  (echo x ;; echo y) t = (Normal (), (t ++ [x]) ++ [y]).
Proof. reflexivity. Qed.
End SummaryLines.

(** X21.  The build summary follows the estimate: it shows the line of the
    estimate exactly when the estimate was computed, and the line that no
    estimate could be made exactly when the warning was printed; the text
    that [toFixed] writes is never "N/A". *)
Theorem summary_follows_estimate (a b : number) (t : list string) :
  ∃ MB t',
    estimate a b t = (Normal MB, t')
    ∧ report_estimate MB t'
      = (Normal (),
         t' ++ (if gt a (int 0) || gt b (int 0)
                then [estimate_line MB (toFixed 2 (div (parseFloat_signed MB) (int 1024)));
                      estimate_note]
                else [no_estimate_line])).
Proof.
  unfold estimate. destruct (gt a (int 0) || gt b (int 0)).
  - eexists _, _. split; [reflexivity|]. unfold report_estimate.
    destruct (String.eqb_spec
      (toFixed 2 (div (add (add a b) bufferBytes) (mul (int 1024) (int 1024)))) "N/A")
      as [H|_]; [by apply toFixed_not_NA in H|].
    cbn [negb]. rewrite echo_twice. by rewrite <- app_assoc.
  - eexists _, _. split; [reflexivity|]. reflexivity.
Qed.

(** ** The severities on the terminal and in the summary file *)

Section TerminalLines.
Import JS DockerScan Notions.

Lemma colorFn_plain severity text w :
  inherited severity = false → colorFn severity text w = (Normal text, w).
Proof.
  intros Hs. unfold colorFn. rewrite Hs.
  by destruct (existsb (String.eqb severity) severityColors).
Qed.

Lemma for_of_echo_severity entries : ∀ w,
  Forall (λ entry, inherited entry.1 = false) entries →
  for_of entries echo_severity tt w
  = (Normal tt,
     {| vars := vars w;
        terminal := terminal w ++ ((λ entry, "   " +:+ severity_line entry) <$> entries);
        files := files w |}).
Proof.
  induction entries as [|entry entries IH]; intros w Hplain.
  - cbn. rewrite app_nil_r. by destruct w.
  - apply Forall_cons in Hplain as [Hentry Hplain].
    cbn [for_of]. unfold bind at 1.
    rewrite echo_severity_run, colorFn_plain by done.
    rewrite IH by done. cbn [vars terminal files fmap list_fmap].
    by rewrite <- app_assoc.
Qed.
End TerminalLines.

(** X23.  For counts whose severities are no property names of
    [Object.prototype], the terminal and the summary file show the same
    lines of severities: the loop of the terminal completes and prints,
    indented, one line for each entry of the counts in the order of
    [Object.entries], and the lines of the file are these lines in another
    order.  A severity that reads "valueOf" stops the loop: its colour is
    looked up in [severityColors], found in [Object.prototype] and called,
    which throws. *)
Theorem terminal_lists_the_lines_of_the_file (vulnCounts : object) (w : world) :
  Forall (λ entry, inherited entry.1 = false) (Object_entries vulnCounts) →
  for_of (Object_entries vulnCounts) echo_severity tt w
  = (Normal tt,
     {| vars := vars w;
        terminal := terminal w
                    ++ ((λ entry, "   " +:+ severity_line entry)
                          <$> Object_entries vulnCounts);
        files := files w |})
  ∧ severity_line <$> Array_sort by_severity (Object_entries vulnCounts)
    ≡ₚ severity_line <$> Object_entries vulnCounts
  ∧ ∀ count, echo_severity ("valueOf", count) tt w = (Throw "TypeError", w).
Proof.
  intros Hplain. split; [by apply for_of_echo_severity|]. split.
  - apply fmap_Permutation, Array_sort_Permutation.
  - intros count. by rewrite echo_severity_run.
Qed.

Lemma terminal_lists_the_lines_of_the_file_witness :
  for_of (Object_entries [("HIGH", Num 2); ("CRITICAL", Num 1)]) echo_severity tt
    initial_world
  = (Normal tt,
     {| vars := initial_globals;
        terminal := ["   HIGH: 2"; "   CRITICAL: 1"];
        files := [] |})
  ∧ severity_line
      <$> Array_sort by_severity (Object_entries [("HIGH", Num 2); ("CRITICAL", Num 1)])
    ≡ₚ ["HIGH: 2"; "CRITICAL: 1"].
Proof.
  destruct (terminal_lists_the_lines_of_the_file
              [("HIGH", Num 2); ("CRITICAL", Num 1)] initial_world)
    as (Hloop & Hperm & _).
  - by repeat constructor.
  - split; [exact Hloop | exact Hperm].
Defined.

(** ** The times of the build *)

(** X24.  When the clock does not go back during the build (and does not
    read 0 at its start), no measured time is negative and the times of the
    three steps never add up to more than the total time. *)
Theorem build_times_add_up (t0 t1 t2 t3 t4 t5 t6 t7 : Z) :
  (0 < t0 ≤ t1)%Z → (t1 ≤ t2 ≤ t3)%Z → (t3 ≤ t4 ≤ t5)%Z → (t5 ≤ t6 ≤ t7)%Z →
  let times := build_times t0 t1 t2 t3 t4 t5 t6 t7 in
  (0 ≤ packageBuildTime times)%Z
  ∧ (0 ≤ packageDeployTime times)%Z
  ∧ (0 ≤ dockerBuildTime times)%Z
  ∧ (packageBuildTime times + packageDeployTime times + dockerBuildTime times
     ≤ totalBuildTime times)%Z.
Proof.
  intros H01 H23 H45 H67. unfold build_times. cbv zeta.
  cbn [packageBuildTime packageDeployTime dockerBuildTime totalBuildTime].
  unfold getElapsedTime, startTimer.
  repeat (first [rewrite lookup_insert_eq | rewrite lookup_insert_ne by done]).
  destruct (Z.eqb_spec t0 0), (Z.eqb_spec t1 0), (Z.eqb_spec t3 0), (Z.eqb_spec t5 0);
    try lia.
  repeat split; Z.div_mod_to_equations; lia.
Qed.

Lemma build_times_add_up_witness :
  let times := build_times 1750000000000 1750000000500 1750000065999 1750000066000
                           1750000100100 1750000100200 1750000400900 1750000401000 in
  (0 ≤ packageBuildTime times)%Z
  ∧ (0 ≤ packageDeployTime times)%Z
  ∧ (0 ≤ dockerBuildTime times)%Z
  ∧ (packageBuildTime times + packageDeployTime times + dockerBuildTime times
     ≤ totalBuildTime times)%Z.
Proof.
  apply build_times_add_up; lia.
Defined.

(** ** The configuration of the scripts *)

(** X25.  The scripts agree on their configuration: for every environment
    and machine, local_build.mjs and local_build_scan.sh build the same
    version and release type with the same launcher, for the same platforms
    and under the same image name, and that name is the one docker_scan.mjs
    scans by default. *)
Theorem scripts_agree_on_configuration (process_env : gmap string string)
    (localArch : string) :
  Get (config process_env) "appVersion"
  = Prim (Str (LocalBuildScan.APP_VERSION_TAG process_env))
  ∧ Get (config process_env) "n8nReleaseType"
    = Prim (Str (LocalBuildScan.N8N_RELEASE_TYPE_ARG process_env))
  ∧ Get (config process_env) "launcherVersion"
    = Prim (Str (LocalBuildScan.LAUNCHER_VERSION_ARG process_env))
  ∧ Get (config process_env) "fullImageName"
    = Prim (Str (LocalBuildScan.FULL_IMAGE_NAME process_env))
  ∧ targetPlatform process_env localArch
    = LocalBuildScan.TARGET_PLATFORM_ARG process_env localArch
  ∧ builderPlatform process_env localArch
    = LocalBuildScan.BUILDER_PLATFORM_ARG process_env localArch
  ∧ defaultImageName process_env = LocalBuildScan.FULL_IMAGE_NAME process_env.
Proof.
  repeat split; reflexivity.
Qed.

(** X26.  The version of Node is the exception: the "20" of the
    configuration of local_build.mjs is always overwritten, so the script
    builds with the version of the environment or else with 22, while
    local_build_scan.sh falls back on 20; the two scripts build with the
    same version exactly when [NODE_VERSION_ARG] is set and not empty. *)
Theorem node_version_defaults_differ (process_env : gmap string string) :
  Get (config process_env) "nodeVersion"
  = Prim (Str (env_or process_env "NODE_VERSION_ARG" "22"))
  ∧ (Get (config process_env) "nodeVersion"
     = Prim (Str (LocalBuildScan.NODE_VERSION_ARG process_env))
     ↔ ∃ version, process_env !! "NODE_VERSION_ARG" = Some version ∧ version ≠ "").
Proof.
  assert (Get (config process_env) "nodeVersion"
          = Prim (Str (env_or process_env "NODE_VERSION_ARG" "22"))) as Hget
    by reflexivity.
  split; [exact Hget|]. rewrite Hget.
  unfold LocalBuildScan.NODE_VERSION_ARG, LocalBuildScan.param_default, env_or.
  destruct (process_env !! "NODE_VERSION_ARG") as [version|] eqn:Hv.
  - destruct (String.eqb_spec version "") as [->|Hne].
    + split; [discriminate|]. by intros (? & [= <-] & ?).
    + split; [by exists version|done].
  - split; [discriminate|]. by intros (? & ? & _).
Qed.
